(** * inspect_rounds_schema: a schema sniffer over a directory of JSON files

    Shallow embedding of [Index/inspect_rounds_schema.py].  The script walks
    the [.json] files of a directory, samples the records they hold, counts
    keys and record shapes, keeps a few sample values per key and prints a
    four-part report.

    Conventions of the model:
    - a Python [str] is a [string]; each character is read as one code point
      below 256, so that length, ordering, [lower] and substring search are
      those of Python on such strings;
    - a decoded JSON document is a [value]; a [dict] is its item list in
      insertion order (Python keeps keys unique, see [dict_ok]);
    - a [Counter] is an association list in insertion order, since
      [most_common] and [keys()] depend on that order;
    - the [defaultdict(list)] of samples is only read by key: a [gmap];
    - [main] runs in a small monad that threads standard output and
      exceptions. *)

From Stdlib Require Import String Ascii List ZArith Lia Bool.
From Stdlib Require Import DecimalString SpecFloat.
From stdpp Require Import gmap strings list sorting.

Set Warnings "-register-all".

(** ** Python values *)

(** What [json.load] returns: [None], [bool], [int], [float], [str], [list]
    and [dict]. *)
Inductive value : Type :=
| VNone
| VBool (b : bool)
| VInt (n : Z)
| VFloat (f : spec_float)
| VStr (s : string)
| VList (l : list value)
| VDict (d : list (string * value)).

(** Python truth value testing, as used by [or] and [not]. *)
Definition truthy (v : value) : bool :=
  match v with
  | VNone => false
  | VBool b => b
  | VInt n => negb (n =? 0)%Z
  | VFloat (S754_zero _) => false
  | VFloat _ => true
  | VStr s => negb (String.eqb s "")
  | VList [] => false
  | VList (_ :: _) => true
  | VDict [] => false
  | VDict (_ :: _) => true
  end.

(** [a or b] *)
Definition py_or (a b : value) : value := if truthy a then a else b.

(** [d[k]] when present *)
Fixpoint dict_lookup (k : string) (d : list (string * value)) : option value :=
  match d with
  | [] => None
  | (k', v) :: d' => if String.eqb k k' then Some v else dict_lookup k d'
  end.

(** [d.get(k)]: [None] when the key is absent *)
Definition dict_get (d : list (string * value)) (k : string) : value :=
  default VNone (dict_lookup k d).

(** Keys of a Python dict are pairwise distinct. *)
Definition dict_ok (d : list (string * value)) : Prop := NoDup (d.*1).

(** ** String builtins *)

(** [s.startswith(p)] *)
Fixpoint startswith (s p : string) {struct p} : bool :=
  match p, s with
  | EmptyString, _ => true
  | String a p', String b s' => if Ascii.eqb a b then startswith s' p' else false
  | String _ _, EmptyString => false
  end.

(** [s.endswith(suf)] *)
Fixpoint endswith (s suf : string) : bool :=
  String.eqb s suf ||
  match s with
  | EmptyString => false
  | String _ s' => endswith s' suf
  end.

(** [sub in s] on strings *)
Fixpoint contains (sub s : string) : bool :=
  startswith s sub ||
  match s with
  | EmptyString => false
  | String _ s' => contains sub s'
  end.

(** [str.lower] on one code point below 256: the capitals are A..Z and the
    Latin-1 letters 192..222 without the multiplication sign 215. *)
Definition lower_char (c : ascii) : ascii :=
  let n := nat_of_ascii c in
  if ((65 <=? n) && (n <=? 90)) ||
     ((192 <=? n) && (n <=? 222) && negb (n =? 215))
  then ascii_of_nat (n + 32)
  else c.

Fixpoint lower (s : string) : string :=
  match s with
  | EmptyString => EmptyString
  | String c s' => String (lower_char c) (lower s')
  end.


Fixpoint spaces (n : nat) : string :=
  match n with
  | O => EmptyString
  | S n' => String " "%char (spaces n')
  end.

(** [f"{s:w}"] for a string: left-aligned, filled with spaces up to width
    [w], never truncated. *)
Definition ljust (w : nat) (s : string) : string :=
  s +:+ spaces (w - String.length s).

(** [f"{n}"] for a non-negative int *)
Definition str_nat (n : nat) : string :=
  NilEmpty.string_of_uint (Nat.to_uint n).

Definition nl : string := String "010"%char EmptyString.

(** [sorted] on a list of strings *)
Definition sorted (l : list string) : list string := merge_sort String.le l.

(** ** Counter *)

Section counter.
Context {K : Type} `{EqDecision K}.

(** [c[k]], which is 0 for a missing key *)
Fixpoint counter_get (c : list (K * nat)) (k : K) : nat :=
  match c with
  | [] => 0
  | (k', n) :: c' => if decide (k = k') then n else counter_get c' k
  end.

(** [c[k] += 1]: a known key keeps its place, a new one goes last *)
Fixpoint counter_incr (k : K) (c : list (K * nat)) : list (K * nat) :=
  match c with
  | [] => [(k, 1)]
  | (k', n) :: c' =>
      if decide (k = k') then (k', S n) :: c' else (k', n) :: counter_incr k c'
  end.

(** Insertion into a list already ordered by decreasing count; among equal
    counts the inserted item goes first. *)
Fixpoint insert_desc (x : K * nat) (l : list (K * nat)) : list (K * nat) :=
  match l with
  | [] => [x]
  | y :: l' => if snd y <=? snd x then x :: y :: l' else y :: insert_desc x l'
  end.

(** [sorted(c.items(), key=itemgetter(1), reverse=True)]: a stable sort *)
Fixpoint sort_desc (c : list (K * nat)) : list (K * nat) :=
  match c with
  | [] => []
  | x :: c' => insert_desc x (sort_desc c')
  end.

(** [c.most_common(n)], which is [heapq.nlargest(n, c.items(), key=...)],
    the first [n] items of the stable decreasing sort *)
Definition most_common (n : nat) (c : list (K * nat)) : list (K * nat) :=
  take n (sort_desc c).

Definition counter_total (c : list (K * nat)) : nat :=
  foldr (fun p acc => snd p + acc) 0 c.
End counter.

(** ** Aggregate statistics *)

Record stats := {
  key_counts : list (string * nat);
  sample_values : gmap string (list value);
  round_shapes : list (list string * nat)
}.

Definition no_stats : stats :=
  {| key_counts := []; sample_values := ∅; round_shapes := [] |}.

(** [sample_values[k]] on the [defaultdict(list)]: a missing key is entered
    with an empty list by the read itself. *)
Definition touch (k : string) (m : gmap string (list value)) :
    gmap string (list value) :=
  match m !! k with
  | Some _ => m
  | None => <[k := []]> m
  end.

Definition samples_of (m : gmap string (list value)) (k : string) : list value :=
  default [] (m !! k).

(** Body of [for k, v in r.items()]. *)
Definition add_item (st : stats) (kv : string * value) : stats :=
  let '(k, v) := kv in
  let counts := counter_incr k (key_counts st) in
  let m := touch k (sample_values st) in
  let m' := if length (samples_of m k) <? 5
            then <[k := samples_of m k ++ [v]]> m
            else m in
  {| key_counts := counts; sample_values := m'; round_shapes := round_shapes st |}.

(** The record's shape: [tuple(sorted(r.keys()))]. *)
Definition shape_of (r : list (string * value)) : list string := sorted (r.*1).

(** Body of [for r in rounds[:25]] for an [r] that is a dict. *)
Definition add_record (st : stats) (r : list (string * value)) : stats :=
  let keys := shape_of r in
  let st' := {| key_counts := key_counts st;
                sample_values := sample_values st;
                round_shapes := counter_incr keys (round_shapes st) |} in
  foldl add_item st' r.

(** Body of [for r in rounds[:25]]: anything but a dict is passed over. *)
Definition add_round (st : stats) (r : value) : stats :=
  match r with
  | VDict d => add_record st d
  | _ => st
  end.

(** The record sequence of a decoded file. *)
Definition resolve_rounds (data : value) : value :=
  match data with
  | VDict d =>
      py_or (dict_get d "rounds")
        (py_or (dict_get d "data") (py_or (dict_get d "items") (VList [])))
  | _ => data
  end.

(** What one decoded file adds to the statistics: nothing unless the
    resolved sequence is a non-empty list, else its first 25 entries. *)
Definition scan_data (st : stats) (data : value) : stats :=
  match resolve_rounds data with
  | VList (r :: rs) => foldl add_round st (take 25 (r :: rs))
  | _ => st
  end.

(** ** The run: output and exceptions *)

(** The part of the machine [main] reads.  [json_load p] is [None] when
    [json.load] on the file at [p] raises, that is when its text is not
    valid JSON. *)
Record filesystem := {
  isdir : string → bool;
  listdir : string → list string;
  json_load : string → option value
}.

Inductive exn : Type :=
| SystemExit (msg : string)
| JSONDecodeError (path : string).

(** A computation takes what was printed so far (one entry per [print]
    call) and returns what is printed after it, with a result or the
    exception that ended it. *)
Definition prog (A : Type) : Type := list string → list string * (exn + A).

#[global] Instance prog_ret : MRet prog := fun A a out => (out, inr a).

#[global] Instance prog_bind : MBind prog := fun A B k c out =>
  match c out with
  | (out', inl e) => (out', inl e)
  | (out', inr a) => k a out'
  end.

Definition raise {A} (e : exn) : prog A := fun out => (out, inl e).

Definition print (line : string) : prog unit := fun out => (out ++ [line], inr tt).

(** [for x in l: body], threading an accumulator *)
Fixpoint for_acc {A S} (l : list A) (body : S → A → prog S) (s : S) : prog S :=
  match l with
  | [] => mret s
  | x :: l' => s' ← body s x; for_acc l' body s'
  end.

(** [for x in l: body] *)
Fixpoint for_each {A} (l : list A) (body : A → prog unit) : prog unit :=
  match l with
  | [] => mret tt
  | x :: l' => body x;; for_each l' body
  end.

Definition ROUNDS_DIR : string := "rounds".

(** [os.path.join(dir, fn)] for a name taken from a directory listing *)
Definition path_join (dir fn : string) : string := dir +:+ "/" +:+ fn.

(** [with open(path) as f: data = json.load(f)] *)
Definition load (fs : filesystem) (path : string) : prog value :=
  match json_load fs path with
  | Some data => mret data
  | None => raise (JSONDecodeError path)
  end.

(** The files the run reads: the first 200 names ending in [.json]. *)
Definition selected (fs : filesystem) : list string :=
  take 200 (List.filter (fun f => endswith f ".json") (listdir fs ROUNDS_DIR)).

(** The loop [for fn in files] *)
Definition scan_files (fs : filesystem) (files : list string) : prog stats :=
  for_acc files
    (fun st fn => data ← load fs (path_join ROUNDS_DIR fn); mret (scan_data st data))
    no_stats.

(** ** The report *)

Record candidates := {
  cand_date : list string;
  cand_score : list string;
  cand_course : list string;
  cand_tournament : list string
}.

Definition no_candidates : candidates :=
  {| cand_date := []; cand_score := []; cand_course := []; cand_tournament := [] |}.

(** Body of [for k in key_counts.keys()] in the heuristic part. *)
Definition classify (c : candidates) (k : string) : candidates :=
  let lk := lower k in
  let d := if contains "date" lk || contains "time" lk
           then cand_date c ++ [k] else cand_date c in
  let s := if contains "score" lk || contains "strokes" lk ||
              existsb (String.eqb lk) ["r1"; "r2"; "r3"; "r4"]
           then cand_score c ++ [k] else cand_score c in
  let o := if contains "course" lk || contains "club" lk || contains "venue" lk
           then cand_course c ++ [k] else cand_course c in
  let t := if contains "tournament" lk || contains "event" lk
           then cand_tournament c ++ [k] else cand_tournament c in
  {| cand_date := d; cand_score := s; cand_course := o; cand_tournament := t |}.

Definition guess (keys : list string) : candidates :=
  foldl classify no_candidates keys.

(** One line of the first part: [f"{k:30}  {c}"]. *)
Definition key_line (kc : string * nat) : string :=
  ljust 30 (fst kc) +:+ "  " +:+ str_nat (snd kc).

Section report.
(** [str(v)], the text [print] and the f-strings write for a value; the
    built-in is taken as given. *)
Variable py_str : value → string.

Definition str_keys (ks : list string) : string := py_str (VList (VStr <$> ks)).

Definition print_top_keys (st : stats) : prog unit :=
  print (nl +:+ "=== TOP KEYS (most common) ===");;
  for_each (most_common 40 (key_counts st)) (fun kc => print (key_line kc)).

Definition print_samples (st : stats) : prog unit :=
  print (nl +:+ "=== SAMPLE VALUES (first few) ===");;
  for_each (take 30 ((key_counts st).*1)) (fun k =>
    print (nl +:+ k +:+ ":");;
    for_each (take 5 (samples_of (sample_values st) k)) (fun v =>
      print ("  " +:+ " " +:+ py_str v))).

Definition print_candidates (st : stats) : prog unit :=
  let c := guess ((key_counts st).*1) in
  print (nl +:+ "=== HEURISTIC FIELD CANDIDATES ===");;
  for_each [("date", cand_date c); ("score", cand_score c);
            ("course", cand_course c); ("tournament", cand_tournament c)]
    (fun gk => print (fst gk +:+ ": " +:+ str_keys (snd gk))).

Definition print_shapes (st : stats) : prog unit :=
  print (nl +:+ "=== MOST COMMON ROUND SHAPES (key sets) ===");;
  for_each (most_common 5 (round_shapes st)) (fun sc =>
    print (nl +:+ "Count: " +:+ str_nat (snd sc));;
    print ("Keys:" +:+ " " +:+ str_keys (fst sc))).

Definition report (st : stats) : prog unit :=
  print_top_keys st;; print_samples st;; print_candidates st;; print_shapes st.

Definition main (fs : filesystem) : prog unit :=
  if negb (isdir fs ROUNDS_DIR) then
    raise (SystemExit ("Could not find folder: " +:+ ROUNDS_DIR +:+
                       ". Update ROUNDS_DIR in the script."))
  else
    let files := List.filter (fun f => endswith f ".json") (listdir fs ROUNDS_DIR) in
    match files with
    | [] => raise (SystemExit ("No .json files found in " +:+ ROUNDS_DIR))
    | _ :: _ =>
        let files := take 200 files in
        st ← scan_files fs files;
        report st
    end.
End report.

(** ** Notions used to state the properties *)

(** [sub] occurs in [s]. *)
Definition occurs_in (sub s : string) : Prop :=
  ∃ p q : string, s = p +:+ sub +:+ q.

(** [s] ends with [suf]. *)
Definition has_suffix (suf s : string) : Prop :=
  ∃ p : string, s = p +:+ suf.

Definition aliases : list string := ["rounds"; "data"; "items"].

(** The resolution as the specification words it: the first alias that is
    present in the mapping decides, whatever its value; with no alias
    present the sequence is empty. *)
Definition resolve_first_present (d : list (string * value)) : value :=
  match dict_lookup "rounds" d with
  | Some v => v
  | None =>
      match dict_lookup "data" d with
      | Some v => v
      | None =>
          match dict_lookup "items" d with
          | Some v => v
          | None => VList []
          end
      end
  end.

Definition as_dict (v : value) : option (list (string * value)) :=
  match v with
  | VDict d => Some d
  | _ => None
  end.

(** The records a decoded file contributes, in order. *)
Definition records_of (data : value) : list (list (string * value)) :=
  match resolve_rounds data with
  | VList rounds => omap as_dict (take 25 rounds)
  | _ => []
  end.

(** The decoded contents of the files that load, in order. *)
Definition loaded (fs : filesystem) (files : list string) : list value :=
  omap (fun fn => json_load fs (path_join ROUNDS_DIR fn)) files.

(** The path of the first file that fails to load, if any. *)
Fixpoint first_bad (fs : filesystem) (files : list string) : option string :=
  match files with
  | [] => None
  | fn :: files' =>
      match json_load fs (path_join ROUNDS_DIR fn) with
      | None => Some (path_join ROUNDS_DIR fn)
      | Some _ => first_bad fs files'
      end
  end.

(** All sampled records of a run over [files], in encounter order. *)
Definition sampled_records (fs : filesystem) (files : list string) :
    list (list (string * value)) :=
  loaded fs files ≫= records_of.

(** The values a key takes in a sequence of records, one per record that
    has the key. *)
Definition occurrences (k : string) (recs : list (list (string * value))) :
    list value :=
  omap (dict_lookup k) recs.

(** The values a key takes in a sequence of items. *)
Definition values_for (k : string) (items : list (string * value)) : list value :=
  (filter (fun kv => kv.1 = k) items).*2.

(** What the sampling step does to one key's list. *)
Definition keep5 (l : list value) (v : value) : list value :=
  if length l <? 5 then l ++ [v] else l.

(** The invariant of the accumulation: a key's sample list is as long as its
    count, up to 5, and a key enters the counter with a positive count. *)
Definition stats_inv (st : stats) : Prop :=
  (∀ k, length (samples_of (sample_values st) k) =
        Nat.min 5 (counter_get (key_counts st) k)) ∧
  (∀ k, k ∈ (key_counts st).*1 → 1 ≤ counter_get (key_counts st) k).

(** A computation that only prints: it ends normally and adds lines to
    standard output. *)
Definition prints (c : prog unit) : Prop :=
  ∀ out, ∃ lines, c out = (out ++ lines, inr tt).

(** The four tests of [classify], by name. *)
Definition date_test (k : string) : bool :=
  contains "date" (lower k) || contains "time" (lower k).

Definition score_test (k : string) : bool :=
  contains "score" (lower k) || contains "strokes" (lower k) ||
  existsb (String.eqb (lower k)) ["r1"; "r2"; "r3"; "r4"].

Definition course_test (k : string) : bool :=
  contains "course" (lower k) || contains "club" (lower k) ||
  contains "venue" (lower k).

Definition tournament_test (k : string) : bool :=
  contains "tournament" (lower k) || contains "event" (lower k).

(** The distinct elements of a list in order of first occurrence. *)
Fixpoint first_seen (l : list string) : list string :=
  match l with
  | [] => []
  | x :: l' => x :: filter (fun y => y ≠ x) (first_seen l')
  end.

(** Decreasing count, the order of the frequency listings. *)
Definition count_ge {K} (a b : K * nat) : Prop := snd b ≤ snd a.

(** ** The report as a list of lines *)

Definition top_keys_header : string := nl +:+ "=== TOP KEYS (most common) ===".
Definition samples_header : string := nl +:+ "=== SAMPLE VALUES (first few) ===".
Definition candidates_header : string := nl +:+ "=== HEURISTIC FIELD CANDIDATES ===".
Definition shapes_header : string := nl +:+ "=== MOST COMMON ROUND SHAPES (key sets) ===".

Definition top_keys_lines (st : stats) : list string :=
  top_keys_header :: (key_line <$> most_common 40 (key_counts st)).

(** The lines of one key in the second part: its name, then its values. *)
Definition sample_lines (py_str : value → string) (k : string) (vs : list value) :
    list string :=
  (nl +:+ k +:+ ":") :: ((fun v => "  " +:+ " " +:+ py_str v) <$> vs).

Definition samples_lines (py_str : value → string) (st : stats) : list string :=
  samples_header ::
  (take 30 ((key_counts st).*1) ≫= fun k =>
     sample_lines py_str k (take 5 (samples_of (sample_values st) k))).

Definition candidates_lines (py_str : value → string) (keys : list string) :
    list string :=
  [candidates_header;
   "date: " +:+ str_keys py_str (List.filter date_test keys);
   "score: " +:+ str_keys py_str (List.filter score_test keys);
   "course: " +:+ str_keys py_str (List.filter course_test keys);
   "tournament: " +:+ str_keys py_str (List.filter tournament_test keys)].

Definition shape_lines (py_str : value → string) (sc : list string * nat) :
    list string :=
  [nl +:+ "Count: " +:+ str_nat (snd sc); "Keys:" +:+ " " +:+ str_keys py_str (fst sc)].

Definition shapes_lines (py_str : value → string) (st : stats) : list string :=
  shapes_header :: (most_common 5 (round_shapes st) ≫= shape_lines py_str).

Definition report_lines (py_str : value → string) (st : stats) : list string :=
  top_keys_lines st ++ samples_lines py_str st ++
  candidates_lines py_str ((key_counts st).*1) ++ shapes_lines py_str st.


(** ** Sample inputs *)

(** A renderer to run the examples with: Python's [str] on [None],
    booleans, ints, strings and lists of strings written without quotes;
    the properties below hold for any renderer. *)
Definition str_plain (v : value) : string :=
  match v with
  | VNone => "None"
  | VBool true => "True"
  | VBool false => "False"
  | VInt n => NilZero.string_of_int (Z.to_int n)
  | VStr s => s
  | VList l =>
      "[" +:+ String.concat ", "
                (map (fun x => match x with VStr s => s | _ => "" end) l) +:+ "]"
  | _ => ""
  end.

Definition round_a : list (string * value) :=
  [("player", VStr "A"); ("score", VInt 70)].

(** No [rounds] directory at all. *)
Definition fs_missing : filesystem :=
  {| isdir := fun _ => false; listdir := fun _ => []; json_load := fun _ => None |}.

(** A [rounds] directory without any [.json] file. *)
Definition fs_no_json : filesystem :=
  {| isdir := String.eqb "rounds";
     listdir := fun _ => ["notes.txt"; "a.json.bak"];
     json_load := fun _ => None |}.

(** Three files holding one record each. *)
Definition fs_three : filesystem :=
  {| isdir := String.eqb "rounds";
     listdir := fun _ => ["p1.json"; "p2.json"; "readme.md"; "p3.json"];
     json_load := fun p =>
       if bool_decide (p ∈ ["rounds/p1.json"; "rounds/p2.json"; "rounds/p3.json"])
       then Some (VList [VDict round_a]) else None |}.

(** The same directory seen from a machine that differs elsewhere. *)
Definition fs_three_elsewhere : filesystem :=
  {| isdir := fun p => String.eqb "rounds" p || String.eqb "tmp" p;
     listdir := fun p =>
       if String.eqb "rounds" p
       then ["p1.json"; "p2.json"; "readme.md"; "p3.json"] else ["x.json"];
     json_load := fun p =>
       if bool_decide (p ∈ ["rounds/p1.json"; "rounds/p2.json"; "rounds/p3.json"])
       then Some (VList [VDict round_a])
       else if String.eqb p "tmp/x.json" then Some VNone else None |}.

(** A directory whose second file is not valid JSON. *)
Definition fs_broken : filesystem :=
  {| isdir := String.eqb "rounds";
     listdir := fun _ => ["p1.json"; "p2.json"; "p3.json"];
     json_load := fun p =>
       if String.eqb p "rounds/p2.json" then None else Some (VList [VDict round_a]) |}.

(** One file wrapping seven records under ["rounds"], with scores 70..76;
    the third record has no ["course"]. *)
Definition scored (n : Z) : value :=
  VDict [("score", VInt n); ("course", VStr "Links")].

Definition fs_seven : filesystem :=
  {| isdir := String.eqb "rounds";
     listdir := fun _ => ["p.json"];
     json_load := fun _ =>
       Some (VDict [("player", VStr "A");
                    ("rounds", VList [scored 70; scored 71; VDict [("score", VInt 72)];
                                      scored 73; scored 74; scored 75; scored 76])]) |}.

Definition stats_seven : stats :=
  foldl scan_data no_stats (loaded fs_seven (selected fs_seven)).

Definition stats_three : stats :=
  foldl scan_data no_stats (loaded fs_three (selected fs_three)).

(** A wrapper whose ["rounds"] is empty while its ["data"] holds a record. *)
Definition empty_rounds_then_data : list (string * value) :=
  [("rounds", VList []); ("data", VList [VDict round_a])].

(** A wrapper without any of the aliases. *)
Definition no_alias : list (string * value) :=
  [("player", VStr "A"); ("results", VList [VDict round_a])].

(** 201 files [f0.json] .. [f200.json], each an empty array; in
    [fs_many_bad_tail] the last one, past the cap of 200, is not valid
    JSON. *)
Definition many_names : list string :=
  (fun n => "f" +:+ str_nat n +:+ ".json") <$> seq 0 201.

Definition fs_many : filesystem :=
  {| isdir := String.eqb "rounds";
     listdir := fun _ => many_names;
     json_load := fun _ => Some (VList []) |}.

Definition fs_many_bad_tail : filesystem :=
  {| isdir := String.eqb "rounds";
     listdir := fun _ => many_names;
     json_load := fun p =>
       if String.eqb p "rounds/f200.json" then None else Some (VList []) |}.

(** A wrapper whose ["rounds"] is a mapping, not a sequence, while its
    ["data"] holds a record. *)
Definition rounds_is_mapping : list (string * value) :=
  [("rounds", VDict [("r1", VInt 70)]); ("data", VList [VDict round_a])].

(** 25 entries that are not mappings, then a record. *)
Definition numbers_then_record : list value :=
  replicate 25 (VInt 0) ++ [VDict round_a].

(** * Properties *)

(** ** Strings *)

Lemma append_cons (c : ascii) (s t : string) :
  String c s +:+ t = String c (s +:+ t).
Proof. reflexivity. Qed.


Lemma startswith_spec (s p : string) :
  startswith s p = true ↔ ∃ q : string, s = p +:+ q.
Proof.
  revert s. induction p as [|a p IH]; intros s; simpl.
  - split; [intros _; by exists s | done].
  - destruct s as [|b s].
    + split; [done | intros [q Hq]; discriminate].
    + destruct (Ascii.eqb a b) eqn:E.
      * apply Ascii.eqb_eq in E as ->. rewrite IH.
        split; intros [q Hq]; exists q; rewrite append_cons in *; congruence.
      * apply Ascii.eqb_neq in E.
        split; [done | intros [q Hq]; rewrite append_cons in Hq; congruence].
Qed.

Lemma contains_spec (sub s : string) :
  contains sub s = true ↔ occurs_in sub s.
Proof.
  unfold occurs_in. induction s as [|c s IH]; simpl.
  - rewrite orb_false_r, startswith_spec. split.
    + intros [q Hq]. by exists "", q.
    + intros ([|??] & q & Hq); [by exists q | discriminate].
  - rewrite orb_true_iff, startswith_spec, IH. split.
    + intros [[q Hq] | (p & q & Hq)].
      * by exists "", q.
      * exists (String c p), q. rewrite append_cons. by rewrite Hq.
    + intros ([|c' p] & q & Hq).
      * left. by exists q.
      * right. exists p, q. rewrite append_cons in Hq. congruence.
Qed.

Lemma endswith_cons (c : ascii) (s suf : string) :
  endswith (String c s) suf = String.eqb (String c s) suf || endswith s suf.
Proof. reflexivity. Qed.

Lemma endswith_spec (s suf : string) :
  endswith s suf = true ↔ has_suffix suf s.
Proof.
  unfold has_suffix. induction s as [|c s IH].
  - destruct suf as [|a suf]; simpl.
    + split; [intros _; by exists "" | done].
    + split; [done | intros [[|??] Hp]; discriminate].
  - rewrite endswith_cons, orb_true_iff, String.eqb_eq, IH. split.
    + intros [<- | [p Hp]]; [by exists "" |].
      exists (String c p). rewrite append_cons. by rewrite Hp.
    + intros ([|c' p] & Hp); [by left |].
      right. exists p. rewrite append_cons in Hp. congruence.
Qed.

Lemma length_append (s t : string) :
  String.length (s +:+ t) = String.length s + String.length t.
Proof.
  induction s as [|c s IH]; [done |].
  rewrite append_cons. simpl. by rewrite IH.
Qed.

Lemma length_spaces (n : nat) : String.length (spaces n) = n.
Proof. induction n; simpl; congruence. Qed.

Lemma length_ljust (w : nat) (s : string) :
  String.length (ljust w s) = Nat.max w (String.length s).
Proof.
  unfold ljust. rewrite length_append, length_spaces. lia.
Qed.

(** ** Loops and exceptions *)

Lemma bind_eq {A B} (c : prog A) (k : A → prog B) (out : list string) :
  (c ≫= k) out =
  match c out with
  | (out', inl e) => (out', inl e)
  | (out', inr a) => k a out'
  end.
Proof. reflexivity. Qed.

Lemma for_each_print {A} (f : A → string) (l : list A) (out : list string) :
  for_each l (fun x => print (f x)) out = (out ++ (f <$> l), inr tt).
Proof.
  revert out. induction l as [|x l IH]; intros out; simpl.
  - by rewrite app_nil_r.
  - rewrite bind_eq. unfold print at 1. rewrite IH.
    by rewrite <- app_assoc.
Qed.

Lemma prints_print (line : string) : prints (print line).
Proof. intros out. by exists [line]. Qed.

Lemma prints_then (c k : prog unit) : prints c → prints k → prints (c;; k).
Proof.
  intros Hc Hk out. rewrite bind_eq.
  destruct (Hc out) as [l1 ->]. destruct (Hk (out ++ l1)) as [l2 ->].
  exists (l1 ++ l2). by rewrite app_assoc.
Qed.

Lemma prints_for_each {A} (l : list A) (body : A → prog unit) :
  (∀ x, prints (body x)) → prints (for_each l body).
Proof.
  intros Hbody. induction l as [|x l IH]; simpl.
  - intros out. exists []. by rewrite app_nil_r.
  - by apply prints_then.
Qed.

(** The report never raises. *)
Lemma report_prints (py_str : value → string) (st : stats) :
  prints (report py_str st).
Proof.
  unfold report, print_top_keys, print_samples, print_candidates, print_shapes.
  repeat first
    [ apply prints_for_each; intros ?
    | apply prints_print
    | apply prints_then ].
Qed.

(** The loop over the files stops at the first file that does not load and
    otherwise folds [scan_data] over the decoded files; it prints nothing. *)
Lemma scan_loop (fs : filesystem) (files : list string) (st : stats)
    (out : list string) :
  for_acc files
    (fun st fn => data ← load fs (path_join ROUNDS_DIR fn); mret (scan_data st data))
    st out =
  (out, match first_bad fs files with
        | Some p => inl (JSONDecodeError p)
        | None => inr (foldl scan_data st (loaded fs files))
        end).
Proof.
  revert st. induction files as [|fn files IH]; intros st; [done |].
  unfold loaded in *. simpl. rewrite !bind_eq. unfold load.
  destruct (json_load fs (path_join ROUNDS_DIR fn)) as [data|]; [|done].
  simpl. apply IH.
Qed.

Lemma scan_files_eq (fs : filesystem) (files : list string) (out : list string) :
  scan_files fs files out =
  (out, match first_bad fs files with
        | Some p => inl (JSONDecodeError p)
        | None => inr (foldl scan_data no_stats (loaded fs files))
        end).
Proof. apply scan_loop. Qed.

Lemma scan_files_done (fs : filesystem) (files : list string)
    (out out' : list string) (st : stats) :
  scan_files fs files out = (out', inr st) →
  out' = out ∧ st = foldl scan_data no_stats (loaded fs files).
Proof.
  rewrite scan_files_eq. destruct (first_bad fs files); naive_solver.
Qed.

Lemma first_bad_Some (fs : filesystem) (files : list string) (fn : string) :
  fn ∈ files → json_load fs (path_join ROUNDS_DIR fn) = None →
  ∃ p, first_bad fs files = Some p.
Proof.
  intros Hin Hbad. induction files as [|f files IH]; [by apply elem_of_nil in Hin |].
  simpl. destruct (json_load fs (path_join ROUNDS_DIR f)) eqn:E; [|eauto].
  apply elem_of_cons in Hin as [-> | Hin]; [congruence | auto].
Qed.

Lemma first_bad_ext (fs1 fs2 : filesystem) (files : list string) :
  (∀ fn, fn ∈ files →
     json_load fs1 (path_join ROUNDS_DIR fn) = json_load fs2 (path_join ROUNDS_DIR fn)) →
  first_bad fs1 files = first_bad fs2 files ∧ loaded fs1 files = loaded fs2 files.
Proof.
  unfold loaded. induction files as [|f files IH]; intros Hagree; [done |].
  destruct IH as [IH1 IH2].
  { intros fn Hfn. apply Hagree. by apply list_elem_of_further. }
  cbn [first_bad omap list_omap].
  rewrite <- (Hagree f) by apply list_elem_of_here.
  rewrite IH1.
  destruct (json_load fs1 (path_join ROUNDS_DIR f)); [|done].
  split; [done |]. f_equal. exact IH2.
Qed.

Lemma selected_listed (fs : filesystem) (fn : string) :
  fn ∈ selected fs → fn ∈ listdir fs ROUNDS_DIR ∧ has_suffix ".json" fn.
Proof.
  unfold selected. intros Hin.
  apply elem_of_take in Hin as (i & Hin & _).
  apply list_elem_of_lookup_2, list_elem_of_In, filter_In in Hin as [Hin Hsuf].
  split; [by apply list_elem_of_In | by apply endswith_spec].
Qed.

Lemma no_json_files (l : list string) :
  Forall (fun f => ¬ has_suffix ".json" f) l →
  List.filter (fun f => endswith f ".json") l = [].
Proof.
  induction 1 as [|f l Hf _ IH]; [done |].
  simpl. destruct (endswith f ".json") eqn:E; [|done].
  by apply endswith_spec in E.
Qed.

Lemma main_eq (py_str : value → string) (fs : filesystem) (out : list string) :
  isdir fs ROUNDS_DIR = true → selected fs ≠ [] →
  main py_str fs out =
  match first_bad fs (selected fs) with
  | Some p => (out, inl (JSONDecodeError p))
  | None => report py_str (foldl scan_data no_stats (loaded fs (selected fs))) out
  end.
Proof.
  unfold main, selected. intros -> Hsel. simpl.
  destruct (List.filter _ _) as [|f l] eqn:E; [by rewrite take_nil in Hsel |].
  rewrite bind_eq, scan_files_eq.
  by destruct (first_bad fs _).
Qed.

(** ** Alias resolution *)

(** C1 as stated fails: with ["rounds"] present but empty and ["data"]
    holding a record, the first alias present is ["rounds"], yet the run
    takes the records of ["data"] and counts their keys. *)
Lemma first_present_alias_not_used :
  dict_lookup "rounds" empty_rounds_then_data = Some (VList []) ∧
  resolve_first_present empty_rounds_then_data = VList [] ∧
  resolve_rounds (VDict empty_rounds_then_data) ≠
    resolve_first_present empty_rounds_then_data ∧
  records_of (VDict empty_rounds_then_data) = [round_a].
Proof.
  repeat split. vm_compute. discriminate.
Qed.

(** C1, amended. For a file whose top-level value is a mapping, the aliases
    "rounds", "data", "items" are tried in that order and the first one
    whose value is truthy is used; an alias that is absent, or present with
    a falsy value such as an empty sequence, is passed over.  When no alias
    has a truthy value, in particular when none is present, the record
    sequence is empty.  Whenever the first alias present holds a truthy
    value, it is the one used. *)
Theorem first_truthy_alias_used (d : list (string * value)) :
  resolve_rounds (VDict d) =
    default (VList []) (List.find truthy (dict_get d <$> aliases)) ∧
  ((∀ a, a ∈ aliases → dict_lookup a d = None) →
     resolve_rounds (VDict d) = VList []) ∧
  (truthy (resolve_first_present d) = true →
     resolve_rounds (VDict d) = resolve_first_present d).
Proof.
  unfold resolve_rounds, resolve_first_present, py_or, dict_get.
  cbn [aliases fmap list_fmap List.find].
  split; [|split].
  - destruct (truthy (default VNone (dict_lookup "rounds" d))); [done |].
    destruct (truthy (default VNone (dict_lookup "data" d))); [done |].
    by destruct (truthy (default VNone (dict_lookup "items" d))).
  - intros Hnone.
    rewrite !Hnone; [done | | |]; unfold aliases;
      rewrite !elem_of_cons; tauto.
  - destruct (dict_lookup "rounds" d) as [v1|]; simpl; [by intros -> |].
    destruct (dict_lookup "data" d) as [v2|]; simpl; [by intros -> |].
    destruct (dict_lookup "items" d) as [v3|]; simpl; [by intros -> | done].
Qed.

Lemma first_truthy_alias_used_witness :
  resolve_rounds (VDict empty_rounds_then_data) = VList [VDict round_a] ∧
  resolve_rounds (VDict no_alias) = VList [] ∧
  resolve_rounds (VDict [("items", VList [VDict round_a])]) = VList [VDict round_a].
Proof.
  destruct (first_truthy_alias_used empty_rounds_then_data) as (Hfirst & _ & _).
  destruct (first_truthy_alias_used no_alias) as (_ & Hnone & _).
  destruct (first_truthy_alias_used [("items", VList [VDict round_a])])
    as (_ & _ & Hagree).
  split; [exact Hfirst | split].
  - apply Hnone. intros a Ha. unfold aliases in Ha.
    repeat (apply elem_of_cons in Ha as [-> | Ha]; [reflexivity |]).
    by apply elem_of_nil in Ha.
  - apply Hagree. reflexivity.
Defined.

(** ** Failing runs *)

(** C2. When the configured directory does not exist, or exists without any
    file whose name ends in [.json], [main] ends with [SystemExit] carrying a
    message that names the directory, and standard output is left as it was:
    no part of the report is printed. *)
Theorem config_error_no_report (py_str : value → string) (fs : filesystem)
    (out : list string) :
  isdir fs ROUNDS_DIR = false ∨
    Forall (fun f => ¬ has_suffix ".json" f) (listdir fs ROUNDS_DIR) →
  let msg :=
    if isdir fs ROUNDS_DIR
    then "No .json files found in " +:+ ROUNDS_DIR
    else "Could not find folder: " +:+ ROUNDS_DIR +:+
         ". Update ROUNDS_DIR in the script." in
  main py_str fs out = (out, inl (SystemExit msg)) ∧ occurs_in ROUNDS_DIR msg.
Proof.
  intros Hcfg. unfold main.
  destruct (isdir fs ROUNDS_DIR) eqn:Hdir; simpl.
  - destruct Hcfg as [? | Hnone]; [done |].
    rewrite (no_json_files _ Hnone). split; [done |].
    by exists "No .json files found in ", "".
  - split; [done |].
    by exists "Could not find folder: ", ". Update ROUNDS_DIR in the script.".
Qed.

Lemma config_error_no_report_witness :
  main str_plain fs_missing [] =
    ([], inl (SystemExit "Could not find folder: rounds. Update ROUNDS_DIR in the script.")) ∧
  main str_plain fs_no_json [] = ([], inl (SystemExit "No .json files found in rounds")).
Proof.
  split.
  - apply (config_error_no_report str_plain fs_missing []). left. reflexivity.
  - apply (config_error_no_report str_plain fs_no_json []). right.
    repeat constructor; rewrite <- endswith_spec; vm_compute; discriminate.
Defined.

(** C3. When one of the selected files is not valid JSON, [main] ends with
    the decoder's exception for the first such file, and standard output is
    left as it was: no report section is printed, not even a partial one. *)
Theorem parse_error_no_report (py_str : value → string) (fs : filesystem)
    (out : list string) (fn : string) :
  isdir fs ROUNDS_DIR = true →
  fn ∈ selected fs →
  json_load fs (path_join ROUNDS_DIR fn) = None →
  ∃ path, first_bad fs (selected fs) = Some path ∧
          main py_str fs out = (out, inl (JSONDecodeError path)).
Proof.
  intros Hdir Hin Hbad.
  destruct (first_bad_Some fs _ fn Hin Hbad) as [p Hp].
  exists p. split; [done |].
  rewrite main_eq, Hp; [done | done |].
  intros Hnil. rewrite Hnil in Hin. by apply elem_of_nil in Hin.
Qed.

Lemma parse_error_no_report_witness :
  ∃ path, first_bad fs_broken (selected fs_broken) = Some path ∧
          main str_plain fs_broken [] = ([], inl (JSONDecodeError path)).
Proof.
  apply (parse_error_no_report str_plain fs_broken [] "p2.json").
  - reflexivity.
  - vm_compute. apply list_elem_of_further, list_elem_of_here.
  - reflexivity.
Defined.

(** ** Determinism *)

(** C10. The whole outcome of a run, that is everything printed together
    with how the run ends, is a function of the directory listing and of the
    contents of the listed files: two machines that agree on these give the
    same output, whatever else differs between them. *)
Theorem main_deterministic (py_str : value → string) (fs1 fs2 : filesystem)
    (out : list string) :
  isdir fs1 ROUNDS_DIR = isdir fs2 ROUNDS_DIR →
  listdir fs1 ROUNDS_DIR = listdir fs2 ROUNDS_DIR →
  (∀ fn, fn ∈ listdir fs1 ROUNDS_DIR →
     json_load fs1 (path_join ROUNDS_DIR fn) = json_load fs2 (path_join ROUNDS_DIR fn)) →
  main py_str fs1 out = main py_str fs2 out.
Proof.
  intros Hdir Hls Hload.
  assert (selected fs1 = selected fs2) as Hsel by (unfold selected; by rewrite Hls).
  destruct (first_bad_ext fs1 fs2 (selected fs1)) as [Hbad Hdata].
  { intros fn Hfn. apply Hload. by apply selected_listed in Hfn as [? _]. }
  destruct (isdir fs1 ROUNDS_DIR) eqn:Hd1.
  - destruct (decide (selected fs1 = [])) as [Hnil | Hne].
    + unfold main. rewrite Hd1, <- Hdir, <- Hls. simpl.
      unfold selected in Hnil.
      destruct (List.filter _ _) as [|f l]; [done | by destruct l].
    + rewrite !main_eq; try congruence.
      by rewrite <- Hsel, Hbad, Hdata.
  - unfold main. by rewrite Hd1, <- Hdir.
Qed.

Lemma main_deterministic_witness :
  main str_plain fs_three [] = main str_plain fs_three_elsewhere [].
Proof.
  apply (main_deterministic str_plain fs_three fs_three_elsewhere []).
  - reflexivity.
  - reflexivity.
  - intros fn Hfn. vm_compute in Hfn.
    repeat (apply elem_of_cons in Hfn as [-> | Hfn]; [reflexivity |]).
    by apply elem_of_nil in Hfn.
Defined.

(** ** Counters *)

Section counter_facts.
Context {K : Type} `{EqDecision K}.
Implicit Types (c : list (K * nat)) (k : K).

Lemma counter_get_incr k k' c :
  counter_get (counter_incr k c) k' =
  if decide (k' = k) then S (counter_get c k') else counter_get c k'.
Proof.
  induction c as [|[k0 n] c IH]; simpl.
  - repeat case_decide; congruence.
  - repeat (case_decide; simpl); congruence.
Qed.

Lemma counter_keys_incr k c :
  (counter_incr k c).*1 = if decide (k ∈ c.*1) then c.*1 else c.*1 ++ [k].
Proof.
  induction c as [|[k0 n] c IH].
  - case_decide as Hin; [by apply elem_of_nil in Hin | done].
  - cbn [counter_incr]. destruct (decide (k = k0)) as [-> | Hne].
    + rewrite decide_True; [done | apply list_elem_of_here].
    + rewrite !fmap_cons, IH. cbn [fst].
      destruct (decide (k ∈ c.*1)) as [Hin | Hnin].
      * rewrite decide_True; [done | by apply list_elem_of_further].
      * rewrite decide_False; [done |].
        rewrite elem_of_cons. by intros [? | ?].
Qed.

Lemma counter_total_incr k c :
  counter_total (counter_incr k c) = S (counter_total c).
Proof.
  unfold counter_total. induction c as [|[k0 n] c IH]; simpl; [done |].
  case_decide; simpl; lia.
Qed.

Lemma counter_incr_pos k c :
  (∀ k', k' ∈ c.*1 → 1 ≤ counter_get c k') →
  ∀ k', k' ∈ (counter_incr k c).*1 → 1 ≤ counter_get (counter_incr k c) k'.
Proof.
  intros Hpos k' Hin. rewrite counter_get_incr.
  case_decide as Hk; [lia |].
  apply Hpos. rewrite counter_keys_incr in Hin.
  case_decide; [done |].
  apply elem_of_app in Hin as [? | Hin]; [done |].
  by apply list_elem_of_singleton in Hin.
Qed.
End counter_facts.

(** ** One item, one record, one file *)

Lemma key_counts_add_item (st : stats) (k : string) (v : value) :
  key_counts (add_item st (k, v)) = counter_incr k (key_counts st).
Proof. reflexivity. Qed.

Lemma round_shapes_add_item (st : stats) (kv : string * value) :
  round_shapes (add_item st kv) = round_shapes st.
Proof. by destruct kv. Qed.

Lemma samples_add_item (st : stats) (k k' : string) (v : value) :
  samples_of (sample_values (add_item st (k, v))) k' =
  if decide (k' = k) then keep5 (samples_of (sample_values st) k') v
  else samples_of (sample_values st) k'.
Proof.
  unfold add_item, keep5, samples_of, touch. simpl.
  destruct (decide (k' = k)) as [-> | Hne].
  - destruct (sample_values st !! k) as [l|] eqn:E; simpl.
    + rewrite E. simpl. destruct (length l <? 5); simpl.
      * by rewrite lookup_insert_eq.
      * by rewrite E.
    + rewrite lookup_insert_eq. simpl. by rewrite lookup_insert_eq.
  - destruct (sample_values st !! k) as [l|] eqn:E; simpl.
    + rewrite E. simpl. destruct (length l <? 5); simpl; [|done].
      by rewrite lookup_insert_ne.
    + rewrite lookup_insert_eq. simpl.
      by rewrite !lookup_insert_ne.
Qed.

Lemma stats_inv_empty : stats_inv no_stats.
Proof.
  split; intros k; simpl.
  - unfold samples_of. by rewrite lookup_empty.
  - intros Hin. by apply elem_of_nil in Hin.
Qed.

Lemma stats_inv_add_item (st : stats) (kv : string * value) :
  stats_inv st → stats_inv (add_item st kv).
Proof.
  destruct kv as [k v]. intros [Hlen Hpos]. split.
  - intros k'. rewrite samples_add_item, key_counts_add_item, counter_get_incr.
    case_decide; [|apply Hlen].
    unfold keep5. specialize (Hlen k').
    destruct (length _ <? 5) eqn:E.
    + apply Nat.ltb_lt in E. rewrite length_app, length_cons, length_nil. lia.
    + apply Nat.ltb_ge in E. lia.
  - rewrite key_counts_add_item. by apply counter_incr_pos.
Qed.

Lemma stats_inv_add_items (items : list (string * value)) (st : stats) :
  stats_inv st → stats_inv (foldl add_item st items).
Proof.
  revert st. induction items as [|kv items IH]; intros st Hst; [done |].
  simpl. by apply IH, stats_inv_add_item.
Qed.

Lemma stats_inv_add_record (st : stats) (r : list (string * value)) :
  stats_inv st → stats_inv (add_record st r).
Proof. intros Hst. unfold add_record. by apply stats_inv_add_items. Qed.

Lemma stats_inv_add_round (st : stats) (r : value) :
  stats_inv st → stats_inv (add_round st r).
Proof. destruct r; simpl; auto using stats_inv_add_record. Qed.

Lemma stats_inv_add_rounds (rounds : list value) (st : stats) :
  stats_inv st → stats_inv (foldl add_round st rounds).
Proof.
  revert st. induction rounds as [|r rounds IH]; intros st Hst; [done |].
  simpl. by apply IH, stats_inv_add_round.
Qed.

Lemma stats_inv_scan_data (st : stats) (data : value) :
  stats_inv st → stats_inv (scan_data st data).
Proof.
  intros Hst. unfold scan_data.
  destruct (resolve_rounds data) as [| | | | |[|r rs]|]; try done.
  by apply stats_inv_add_rounds.
Qed.

Lemma stats_inv_scan (ds : list value) (st : stats) :
  stats_inv st → stats_inv (foldl scan_data st ds).
Proof.
  revert st. induction ds as [|d ds IH]; intros st Hst; [done |].
  simpl. by apply IH, stats_inv_scan_data.
Qed.

(** C9. When the accumulation over the files has completed, every key
    recorded in the key frequency counter has a sample list whose length is
    the smaller of 5 and the key's count; so every counted key has at least
    one sample value. *)
Theorem samples_length_is_capped_count (fs : filesystem) (files : list string)
    (out out' : list string) (st : stats) (k : string) :
  scan_files fs files out = (out', inr st) →
  k ∈ (key_counts st).*1 →
  length (samples_of (sample_values st) k) =
    Nat.min 5 (counter_get (key_counts st) k) ∧
  1 ≤ length (samples_of (sample_values st) k).
Proof.
  intros Hrun Hk. apply scan_files_done in Hrun as [_ ->].
  destruct (stats_inv_scan (loaded fs files) no_stats stats_inv_empty)
    as [Hlen Hpos].
  specialize (Hlen k). specialize (Hpos k Hk). lia.
Qed.

Lemma samples_length_is_capped_count_witness :
  length (samples_of (sample_values stats_seven) "score") =
    Nat.min 5 (counter_get (key_counts stats_seven) "score") ∧
  1 ≤ length (samples_of (sample_values stats_seven) "score").
Proof.
  apply (samples_length_is_capped_count fs_seven (selected fs_seven) [] []).
  - reflexivity.
  - vm_compute. apply list_elem_of_here.
Defined.

(** ** The statistics in closed form *)

Lemma add_rounds_dicts (rounds : list value) (st : stats) :
  foldl add_round st rounds = foldl add_record st (omap as_dict rounds).
Proof.
  revert st. induction rounds as [|r rounds IH]; intros st; [done |].
  destruct r; simpl; apply IH.
Qed.

Lemma scan_data_records (st : stats) (data : value) :
  scan_data st data = foldl add_record st (records_of data).
Proof.
  unfold scan_data, records_of.
  destruct (resolve_rounds data) as [| | | | |[|r rs]|]; try done.
  apply add_rounds_dicts.
Qed.

Lemma scan_records (ds : list value) (st : stats) :
  foldl scan_data st ds = foldl add_record st (ds ≫= records_of).
Proof.
  revert st. induction ds as [|d ds IH]; intros st; [done |].
  rewrite bind_cons, foldl_app, <- scan_data_records. apply IH.
Qed.

Lemma scan_files_records (fs : filesystem) (files : list string)
    (out out' : list string) (st : stats) :
  scan_files fs files out = (out', inr st) →
  st = foldl add_record no_stats (sampled_records fs files).
Proof.
  intros Hrun. apply scan_files_done in Hrun as [_ ->]. apply scan_records.
Qed.

Lemma round_shapes_add_items (items : list (string * value)) (st : stats) :
  round_shapes (foldl add_item st items) = round_shapes st.
Proof.
  revert st. induction items as [|kv items IH]; intros st; [done |].
  simpl. by rewrite IH, round_shapes_add_item.
Qed.

Lemma round_shapes_add_record (st : stats) (r : list (string * value)) :
  round_shapes (add_record st r) = counter_incr (shape_of r) (round_shapes st).
Proof. unfold add_record. by rewrite round_shapes_add_items. Qed.

Lemma shapes_total_add_records (recs : list (list (string * value))) (st : stats) :
  counter_total (round_shapes (foldl add_record st recs)) =
  counter_total (round_shapes st) + length recs.
Proof.
  revert st. induction recs as [|r recs IH]; intros st; simpl; [lia |].
  rewrite IH, round_shapes_add_record, counter_total_incr. lia.
Qed.

Lemma key_counts_add_items (items : list (string * value)) (st : stats) :
  key_counts (foldl add_item st items) =
  foldl (fun c k => counter_incr k c) (key_counts st) (items.*1).
Proof.
  revert st. induction items as [|[k v] items IH]; intros st; [done |].
  cbn [foldl]. by rewrite IH.
Qed.

Lemma key_counts_add_records (recs : list (list (string * value))) (st : stats) :
  key_counts (foldl add_record st recs) =
  foldl (fun c k => counter_incr k c) (key_counts st) ((mjoin recs).*1).
Proof.
  revert st. induction recs as [|r recs IH]; intros st; [done |].
  simpl. rewrite IH, fmap_app, foldl_app. f_equal.
  unfold add_record. by rewrite key_counts_add_items.
Qed.

Lemma values_for_app (k : string) (l1 l2 : list (string * value)) :
  values_for k (l1 ++ l2) = values_for k l1 ++ values_for k l2.
Proof. unfold values_for. by rewrite filter_app, fmap_app. Qed.

Lemma samples_add_items (items : list (string * value)) (st : stats) (k : string) :
  samples_of (sample_values (foldl add_item st items)) k =
  foldl keep5 (samples_of (sample_values st) k) (values_for k items).
Proof.
  revert st. induction items as [|[k0 v] items IH]; intros st; [done |].
  cbn [foldl]. rewrite IH, samples_add_item. unfold values_for.
  destruct (decide (k = k0)) as [-> | Hne].
  - by rewrite filter_cons_True.
  - rewrite filter_cons_False; [done | by intros ?].
Qed.

Lemma samples_add_records (recs : list (list (string * value))) (st : stats)
    (k : string) :
  samples_of (sample_values (foldl add_record st recs)) k =
  foldl keep5 (samples_of (sample_values st) k) (values_for k (mjoin recs)).
Proof.
  revert st. induction recs as [|r recs IH]; intros st; [done |].
  simpl. rewrite IH, values_for_app, foldl_app. f_equal.
  unfold add_record. by rewrite samples_add_items.
Qed.

Lemma keep5_fold (vs l : list value) :
  foldl keep5 l vs = l ++ take (5 - length l) vs.
Proof.
  revert l. induction vs as [|v vs IH]; intros l; cbn [foldl].
  - by rewrite take_nil, app_nil_r.
  - rewrite IH. unfold keep5. destruct (length l <? 5) eqn:E.
    + apply Nat.ltb_lt in E. rewrite length_app. cbn [length].
      replace (5 - length l) with (S (5 - (length l + 1))) by lia.
      by rewrite <- app_assoc.
    + apply Nat.ltb_ge in E.
      by replace (5 - length l) with 0 by lia.
Qed.

Lemma dict_lookup_None (k : string) (d : list (string * value)) :
  k ∉ d.*1 → dict_lookup k d = None ∧ values_for k d = [].
Proof.
  unfold values_for. induction d as [|[k0 v] d IH]; intros Hk; [done |].
  rewrite fmap_cons, not_elem_of_cons in Hk. destruct Hk as [Hne Hk].
  simpl. destruct (String.eqb_spec k k0) as [-> | _]; [done |].
  rewrite filter_cons_False; [by apply IH | by intros ?].
Qed.

Lemma values_for_lookup (k : string) (d : list (string * value)) :
  dict_ok d → values_for k d = option_list (dict_lookup k d).
Proof.
  unfold dict_ok. induction d as [|[k0 v] d IH]; intros Hok; [done |].
  rewrite fmap_cons in Hok. apply NoDup_cons in Hok as [Hk0 Hok].
  unfold values_for in *. simpl.
  destruct (String.eqb_spec k k0) as [-> | Hne].
  - rewrite filter_cons_True by done.
    destruct (dict_lookup_None k0 d Hk0) as [_ Hnil].
    unfold values_for in Hnil. by rewrite fmap_cons, Hnil.
  - rewrite filter_cons_False; [by apply IH | by intros ?].
Qed.

Lemma values_for_occurrences (k : string) (recs : list (list (string * value))) :
  Forall dict_ok recs → values_for k (mjoin recs) = occurrences k recs.
Proof.
  unfold occurrences. induction 1 as [|r recs Hr _ IH]; [done |].
  change (mjoin (r :: recs)) with (r ++ mjoin recs).
  rewrite values_for_app, IH, values_for_lookup by done.
  cbn [omap list_omap]. by destruct (dict_lookup k r).
Qed.

(** ** Sampling caps *)

(** C4. When the resolved record sequence of a file is a sequence of [N]
    mappings, the file adds exactly the first [min N 25] of them to the
    statistics, each once and in order: all [N] when [N ≤ 25], the first 25
    otherwise.  The shape counter, which counts every accumulated record
    once, grows by that number. *)
Theorem first_25_records_accumulated (st : stats) (data : value)
    (ds : list (list (string * value))) :
  resolve_rounds data = VList (VDict <$> ds) →
  ds ≠ [] →
  scan_data st data = foldl add_record st (take 25 ds) ∧
  length (take 25 ds) = Nat.min (length ds) 25 ∧
  (length ds ≤ 25 → take 25 ds = ds) ∧
  counter_total (round_shapes (scan_data st data)) =
    counter_total (round_shapes st) + Nat.min (length ds) 25.
Proof.
  intros Hres _.
  assert (records_of data = take 25 ds) as Hrecs.
  { unfold records_of. rewrite Hres, <- fmap_take.
    induction (take 25 ds) as [|d l IH]; [done |].
    rewrite fmap_cons. cbn [omap list_omap as_dict]. by rewrite IH. }
  rewrite scan_data_records, Hrecs, shapes_total_add_records, length_take.
  repeat split; [lia | apply take_ge | lia].
Qed.

Lemma first_25_records_accumulated_witness :
  scan_data no_stats (VList (VDict <$> replicate 30 round_a)) =
    foldl add_record no_stats (replicate 25 round_a) ∧
  counter_total (round_shapes (scan_data no_stats (VList (VDict <$> replicate 30 round_a)))) = 25.
Proof.
  destruct (first_25_records_accumulated no_stats
              (VList (VDict <$> replicate 30 round_a)) (replicate 30 round_a))
    as (Hscan & _ & _ & Htotal).
  - reflexivity.
  - discriminate.
  - split; [exact Hscan | exact Htotal].
Defined.

(** C5. A key that occurs in more than 5 of the records accumulated over
    the run has a stored sample list of length exactly 5, made of the values
    of its first 5 occurrences in encounter order. *)
Theorem samples_are_first_five (fs : filesystem) (files : list string)
    (out out' : list string) (st : stats) (k : string) :
  scan_files fs files out = (out', inr st) →
  Forall dict_ok (sampled_records fs files) →
  5 < length (occurrences k (sampled_records fs files)) →
  samples_of (sample_values st) k = take 5 (occurrences k (sampled_records fs files)) ∧
  length (samples_of (sample_values st) k) = 5.
Proof.
  intros Hrun Hok Hmany. apply scan_files_records in Hrun as ->.
  assert (samples_of (sample_values
            (foldl add_record no_stats (sampled_records fs files))) k =
          take 5 (occurrences k (sampled_records fs files))) as ->.
  { rewrite samples_add_records, keep5_fold, values_for_occurrences by done.
    unfold samples_of, no_stats. cbn [sample_values]. by rewrite lookup_empty. }
  split; [done |]. rewrite length_take. lia.
Qed.

Lemma samples_are_first_five_witness :
  samples_of (sample_values stats_seven) "score" =
    [VInt 70; VInt 71; VInt 72; VInt 73; VInt 74] ∧
  length (samples_of (sample_values stats_seven) "score") = 5.
Proof.
  apply (samples_are_first_five fs_seven (selected fs_seven) [] [] stats_seven "score").
  - reflexivity.
  - unfold dict_ok. apply (bool_decide_unpack _). vm_compute. exact I.
  - vm_compute. lia.
Defined.

(** ** Shapes *)

Lemma sorted_perm (l1 l2 : list string) : l1 ≡ₚ l2 → sorted l1 = sorted l2.
Proof.
  intros Hperm. unfold sorted.
  apply (StronglySorted_unique String.le).
  - apply StronglySorted_merge_sort; apply _.
  - apply StronglySorted_merge_sort; apply _.
  - by rewrite !merge_sort_Permutation.
Qed.

(** C6. Two records with the same set of keys have the same shape
    fingerprint, whatever the order of their keys, and so they add to the
    same entry of the shape counter: after both, that entry is 2 higher. *)
Theorem shape_ignores_key_order (r1 r2 : list (string * value)) :
  dict_ok r1 → dict_ok r2 →
  (∀ k, k ∈ r1.*1 ↔ k ∈ r2.*1) →
  shape_of r1 = shape_of r2 ∧
  ∀ st, counter_get (round_shapes (add_record (add_record st r1) r2)) (shape_of r1) =
        counter_get (round_shapes st) (shape_of r1) + 2.
Proof.
  intros Hok1 Hok2 Hsame.
  assert (shape_of r1 = shape_of r2) as Hshape.
  { unfold shape_of. apply sorted_perm. by apply NoDup_Permutation. }
  split; [done |]. intros st.
  rewrite !round_shapes_add_record, <- Hshape, !counter_get_incr.
  rewrite !decide_True by done. lia.
Qed.

Lemma shape_ignores_key_order_witness :
  shape_of [("score", VInt 70); ("player", VStr "A")] = shape_of round_a ∧
  ∀ st, counter_get (round_shapes
          (add_record (add_record st [("score", VInt 70); ("player", VStr "A")]) round_a))
          (shape_of [("score", VInt 70); ("player", VStr "A")]) =
        counter_get (round_shapes st)
          (shape_of [("score", VInt 70); ("player", VStr "A")]) + 2.
Proof.
  apply (shape_ignores_key_order [("score", VInt 70); ("player", VStr "A")] round_a).
  - unfold dict_ok. apply (bool_decide_unpack _). vm_compute. exact I.
  - unfold dict_ok. apply (bool_decide_unpack _). vm_compute. exact I.
  - intros k. cbn [fmap list_fmap fst round_a]. rewrite !elem_of_cons. tauto.
Defined.

(** ** Heuristic groups *)

Section groups.
Implicit Types (c : candidates) (k : string) (keys : list string).

Lemma classify_eq c k :
  classify c k =
  {| cand_date := if date_test k then cand_date c ++ [k] else cand_date c;
     cand_score := if score_test k then cand_score c ++ [k] else cand_score c;
     cand_course := if course_test k then cand_course c ++ [k] else cand_course c;
     cand_tournament :=
       if tournament_test k then cand_tournament c ++ [k] else cand_tournament c |}.
Proof. reflexivity. Qed.

(** Each group lists, in encounter order, the keys that pass its test. *)
Lemma guess_from c keys :
  foldl classify c keys =
  {| cand_date := cand_date c ++ List.filter date_test keys;
     cand_score := cand_score c ++ List.filter score_test keys;
     cand_course := cand_course c ++ List.filter course_test keys;
     cand_tournament := cand_tournament c ++ List.filter tournament_test keys |}.
Proof.
  revert c. induction keys as [|k keys IH]; intros c; cbn [foldl List.filter].
  - rewrite !app_nil_r. by destruct c.
  - rewrite IH, classify_eq. cbn [cand_date cand_score cand_course cand_tournament].
    destruct (date_test k), (score_test k), (course_test k), (tournament_test k);
      by rewrite <- ?app_assoc.
Qed.

Lemma guess_eq keys :
  guess keys =
  {| cand_date := List.filter date_test keys;
     cand_score := List.filter score_test keys;
     cand_course := List.filter course_test keys;
     cand_tournament := List.filter tournament_test keys |}.
Proof. unfold guess. by rewrite guess_from. Qed.

Lemma in_filter (f : string → bool) k keys :
  k ∈ keys → (k ∈ List.filter f keys ↔ f k = true).
Proof. intros Hk. rewrite !list_elem_of_In, filter_In in *. tauto. Qed.

Lemma exact_match (lk : string) :
  existsb (String.eqb lk) ["r1"; "r2"; "r3"; "r4"] = true ↔
  lk ∈ ["r1"; "r2"; "r3"; "r4"].
Proof.
  cbn [existsb]. rewrite orb_false_r.
  rewrite !orb_true_iff, !String.eqb_eq, !elem_of_cons, elem_of_nil. tauto.
Qed.

Lemma groups_of_key keys k :
  k ∈ keys →
  (k ∈ cand_date (guess keys) ↔
     occurs_in "date" (lower k) ∨ occurs_in "time" (lower k)) ∧
  (k ∈ cand_score (guess keys) ↔
     occurs_in "score" (lower k) ∨ occurs_in "strokes" (lower k) ∨
     lower k ∈ ["r1"; "r2"; "r3"; "r4"]) ∧
  (k ∈ cand_course (guess keys) ↔
     occurs_in "course" (lower k) ∨ occurs_in "club" (lower k) ∨
     occurs_in "venue" (lower k)) ∧
  (k ∈ cand_tournament (guess keys) ↔
     occurs_in "tournament" (lower k) ∨ occurs_in "event" (lower k)).
Proof.
  intros Hk. rewrite guess_eq.
  cbn [cand_date cand_score cand_course cand_tournament].
  rewrite !in_filter by done.
  unfold date_test, score_test, course_test, tournament_test.
  rewrite !orb_true_iff, exact_match, !contains_spec. tauto.
Qed.
End groups.

(** C7. Every encountered key is put in the [date] group exactly when its
    lowercase form contains "date" or "time", in [score] exactly when it
    contains "score" or "strokes" or is one of "r1", "r2", "r3", "r4", in
    [course] exactly when it contains "course", "club" or "venue", and in
    [tournament] exactly when it contains "tournament" or "event".  The
    groups overlap: "Tournament_Date" is in both [date] and [tournament],
    and "R1" is in [score]. *)
Theorem heuristic_groups (keys : list string) :
  (∀ k, k ∈ keys →
     (k ∈ cand_date (guess keys) ↔
        occurs_in "date" (lower k) ∨ occurs_in "time" (lower k)) ∧
     (k ∈ cand_score (guess keys) ↔
        occurs_in "score" (lower k) ∨ occurs_in "strokes" (lower k) ∨
        lower k ∈ ["r1"; "r2"; "r3"; "r4"]) ∧
     (k ∈ cand_course (guess keys) ↔
        occurs_in "course" (lower k) ∨ occurs_in "club" (lower k) ∨
        occurs_in "venue" (lower k)) ∧
     (k ∈ cand_tournament (guess keys) ↔
        occurs_in "tournament" (lower k) ∨ occurs_in "event" (lower k))) ∧
  ("Tournament_Date" ∈ keys →
     "Tournament_Date" ∈ cand_date (guess keys) ∧
     "Tournament_Date" ∈ cand_tournament (guess keys)) ∧
  ("R1" ∈ keys → "R1" ∈ cand_score (guess keys)).
Proof.
  split; [apply groups_of_key |]. split.
  - intros Hk. destruct (groups_of_key keys _ Hk) as (Hd & _ & _ & Ht).
    split.
    + apply Hd. left. by exists "tournament_", "".
    + apply Ht. left. by exists "", "_date".
  - intros Hk. destruct (groups_of_key keys _ Hk) as (_ & Hs & _ & _).
    apply Hs. right. right. apply list_elem_of_here.
Qed.

Lemma heuristic_groups_witness :
  "Tournament_Date" ∈ cand_date (guess ["Tournament_Date"; "R1"; "player"]) ∧
  "Tournament_Date" ∈ cand_tournament (guess ["Tournament_Date"; "R1"; "player"]) ∧
  "R1" ∈ cand_score (guess ["Tournament_Date"; "R1"; "player"]) ∧
  ("player" ∈ cand_score (guess ["Tournament_Date"; "R1"; "player"]) ↔
     occurs_in "score" "player" ∨ occurs_in "strokes" "player" ∨
     "player" ∈ ["r1"; "r2"; "r3"; "r4"]).
Proof.
  destruct (heuristic_groups ["Tournament_Date"; "R1"; "player"])
    as (Hall & Htd & Hr1).
  destruct Htd as [Hd Ht]; [apply list_elem_of_here |].
  repeat split; [exact Hd | exact Ht | | |].
  - apply Hr1, list_elem_of_further, list_elem_of_here.
  - apply (Hall "player"). do 2 apply list_elem_of_further. apply list_elem_of_here.
  - apply (Hall "player"). do 2 apply list_elem_of_further. apply list_elem_of_here.
Defined.

(** ** Frequency listings *)

Section ranking.
Context {K : Type} `{EqDecision K}.
Implicit Types (c l : list (K * nat)) (x : K * nat).

#[local] Instance count_ge_trans : Transitive (@count_ge K).
Proof. unfold count_ge. intros a b c ??. lia. Qed.

Lemma insert_desc_perm x l : insert_desc x l ≡ₚ x :: l.
Proof.
  induction l as [|y l IH]; simpl; [done |].
  destruct (snd y <=? snd x); [done |].
  rewrite IH. apply Permutation_swap.
Qed.

Lemma sort_desc_perm c : sort_desc c ≡ₚ c.
Proof.
  induction c as [|x c IH]; simpl; [done |].
  by rewrite insert_desc_perm, IH.
Qed.

Lemma insert_desc_sorted x l :
  StronglySorted count_ge l → StronglySorted count_ge (insert_desc x l).
Proof.
  induction 1 as [|y l Hl IH Hy]; simpl.
  - repeat constructor.
  - destruct (snd y <=? snd x) eqn:E.
    + apply Nat.leb_le in E. constructor; [by constructor |].
      constructor; [done |].
      eapply Forall_impl; [exact Hy |]. unfold count_ge. intros z Hz. lia.
    + apply Nat.leb_gt in E. constructor; [done |].
      rewrite insert_desc_perm. constructor; [|done].
      unfold count_ge. lia.
Qed.

Lemma sort_desc_sorted c : StronglySorted count_ge (sort_desc c).
Proof.
  induction c as [|x c IH]; simpl; [constructor |].
  by apply insert_desc_sorted.
Qed.

(** The sort is stable: items of equal count keep their relative order. *)
Lemma insert_desc_stable (n : nat) x l :
  filter (fun p => snd p = n) (insert_desc x l) =
  filter (fun p => snd p = n) (x :: l).
Proof.
  induction l as [|y l IH]; simpl; [done |].
  destruct (snd y <=? snd x) eqn:E; [done |].
  apply Nat.leb_gt in E.
  rewrite (filter_cons _ y), IH, !(filter_cons _ x), (filter_cons _ y).
  repeat case_decide; done || lia.
Qed.

Lemma sort_desc_stable (n : nat) c :
  filter (fun p => snd p = n) (sort_desc c) = filter (fun p => snd p = n) c.
Proof.
  induction c as [|x c IH]; simpl; [done |].
  by rewrite insert_desc_stable, !filter_cons, IH.
Qed.

Lemma most_common_length n c : length (most_common n c) = Nat.min n (length c).
Proof.
  unfold most_common. by rewrite length_take, sort_desc_perm.
Qed.

Lemma most_common_sorted n c : StronglySorted count_ge (most_common n c).
Proof.
  unfold most_common.
  pose proof (sort_desc_sorted c) as Hs.
  rewrite <- (take_drop n (sort_desc c)) in Hs.
  by apply StronglySorted_app_1_l in Hs.
Qed.

(** The listed items are the highest: the others count no more. *)
Lemma most_common_highest n c :
  ∃ rest, most_common n c ++ rest ≡ₚ c ∧
          ∀ a b, a ∈ most_common n c → b ∈ rest → snd b ≤ snd a.
Proof.
  exists (drop n (sort_desc c)). unfold most_common. split.
  - by rewrite take_drop, sort_desc_perm.
  - intros a b Ha Hb.
    pose proof (sort_desc_sorted c) as Hs.
    rewrite <- (take_drop n (sort_desc c)) in Hs.
    exact (StronglySorted_app_1_elem_of _ _ _ _ _ Hs Ha Hb).
Qed.

Lemma most_common_ties n (m : nat) c :
  filter (fun p => snd p = m) (most_common n c) `prefix_of`
  filter (fun p => snd p = m) c.
Proof.
  unfold most_common.
  exists (filter (fun p => snd p = m) (drop n (sort_desc c))).
  by rewrite <- filter_app, take_drop, sort_desc_stable.
Qed.
End ranking.

(** The counter lists its keys in the order in which they were first
    counted. *)
Lemma counter_keys_order (ks : list string) (c : list (string * nat)) :
  (foldl (fun c k => counter_incr k c) c ks).*1 =
  c.*1 ++ filter (fun k => k ∉ c.*1) (first_seen ks).
Proof.
  revert c. induction ks as [|x ks IH]; intros c; cbn [foldl first_seen].
  - by rewrite filter_nil, app_nil_r.
  - rewrite IH, counter_keys_incr, filter_cons, list_filter_filter.
    destruct (decide (x ∈ c.*1)) as [Hin | Hnin].
    + rewrite decide_False by (by intros ?). f_equal.
      apply list_filter_iff. intros y. split; [|by intros [? _]].
      intros Hy. split; [done | by intros ->].
    + rewrite decide_True by done. rewrite <- app_assoc. do 2 f_equal.
      apply list_filter_iff. intros y.
      rewrite not_elem_of_app, list_elem_of_singleton. tauto.
Qed.

Lemma key_counts_order (recs : list (list (string * value))) :
  (key_counts (foldl add_record no_stats recs)).*1 = first_seen ((mjoin recs).*1).
Proof.
  rewrite key_counts_add_records, counter_keys_order. simpl.
  induction (first_seen _) as [|k l IH]; [done |].
  rewrite filter_cons_True by apply not_elem_of_nil. by f_equal.
Qed.

(** C8. The first part of the report is its header followed by one line per
    item of [most_common 40]: these are the 40 keys of highest count (all
    keys when there are fewer), in decreasing order of count, and keys of
    equal count come in the order in which they were first encountered
    during accumulation.  Each line is the key filled with spaces up to 30
    characters, two spaces, and the count. *)
Theorem top_keys_section (fs : filesystem) (files : list string)
    (out out' : list string) (st : stats) :
  scan_files fs files out = (out', inr st) →
  let top := most_common 40 (key_counts st) in
  print_top_keys st out' =
    (out' ++ (nl +:+ "=== TOP KEYS (most common) ===") :: (key_line <$> top), inr tt) ∧
  (∀ k c, key_line (k, c) = ljust 30 k +:+ "  " +:+ str_nat c ∧
          ljust 30 k = k +:+ spaces (30 - String.length k) ∧
          String.length (ljust 30 k) = Nat.max 30 (String.length k)) ∧
  length top = Nat.min 40 (length (key_counts st)) ∧
  (∃ rest, top ++ rest ≡ₚ key_counts st ∧
           ∀ a b, a ∈ top → b ∈ rest → snd b ≤ snd a) ∧
  StronglySorted count_ge top ∧
  (key_counts st).*1 = first_seen ((mjoin (sampled_records fs files)).*1) ∧
  (∀ n, filter (fun p => snd p = n) top `prefix_of`
        filter (fun p => snd p = n) (key_counts st)).
Proof.
  intros Hrun top. repeat split.
  - unfold print_top_keys. rewrite bind_eq. unfold print at 1.
    rewrite for_each_print. by rewrite <- app_assoc.
  - apply length_ljust.
  - apply most_common_length.
  - apply most_common_highest.
  - apply most_common_sorted.
  - apply scan_files_records in Hrun as ->. apply key_counts_order.
  - intros n. apply most_common_ties.
Qed.

Lemma top_keys_section_witness :
  print_top_keys stats_three [] =
    ([nl +:+ "=== TOP KEYS (most common) ===";
      "player                          3";
      "score                           3"], inr tt) ∧
  (key_counts stats_three).*1 = ["player"; "score"].
Proof.
  destruct (top_keys_section fs_three (selected fs_three) [] [] stats_three)
    as (Hprint & _ & _ & _ & _ & Horder & _).
  - reflexivity.
  - split; [exact Hprint | exact Horder].
Defined.

(** * Further properties of the script *)

(** ** [is_date_like] *)



(** ** The report, line by line *)

Lemma for_each_lines {A} (f : A → list string) (body : A → prog unit)
    (l : list A) :
  (∀ x out, body x out = (out ++ f x, inr tt)) →
  ∀ out, for_each l body out = (out ++ (l ≫= f), inr tt).
Proof.
  intros Hbody. induction l as [|x l IH]; intros out; cbn [for_each].
  - by rewrite app_nil_r.
  - rewrite bind_eq, Hbody, IH, bind_cons. by rewrite app_assoc.
Qed.

Lemma then_lines (c k : prog unit) (l1 l2 : list string) (out : list string) :
  c out = (out ++ l1, inr tt) →
  k (out ++ l1) = ((out ++ l1) ++ l2, inr tt) →
  (c;; k) out = (out ++ l1 ++ l2, inr tt).
Proof. intros Hc Hk. by rewrite bind_eq, Hc, Hk, app_assoc. Qed.

Lemma print_top_keys_eq (st : stats) (out : list string) :
  print_top_keys st out = (out ++ top_keys_lines st, inr tt).
Proof.
  unfold print_top_keys, top_keys_lines.
  apply (then_lines _ _ [_]); [done |]. apply for_each_print.
Qed.

Lemma print_samples_eq (py_str : value → string) (st : stats) (out : list string) :
  print_samples py_str st out = (out ++ samples_lines py_str st, inr tt).
Proof.
  unfold print_samples, samples_lines.
  apply (then_lines _ _ [_]); [done |].
  apply for_each_lines. intros k out'. unfold sample_lines.
  apply (then_lines _ _ [_]); [done |]. apply for_each_print.
Qed.

Lemma print_candidates_eq (py_str : value → string) (st : stats) (out : list string) :
  print_candidates py_str st out =
  (out ++ candidates_lines py_str ((key_counts st).*1), inr tt).
Proof.
  unfold print_candidates, candidates_lines. rewrite guess_eq.
  cbn [cand_date cand_score cand_course cand_tournament].
  apply (then_lines _ _ [_]); [done |].
  rewrite for_each_print. done.
Qed.

Lemma print_shapes_eq (py_str : value → string) (st : stats) (out : list string) :
  print_shapes py_str st out = (out ++ shapes_lines py_str st, inr tt).
Proof.
  unfold print_shapes, shapes_lines.
  apply (then_lines _ _ [_]); [done |].
  apply for_each_lines. intros sc out'. unfold shape_lines.
  by apply (then_lines _ _ [_] [_]).
Qed.

Lemma report_eq (py_str : value → string) (st : stats) (out : list string) :
  report py_str st out = (out ++ report_lines py_str st, inr tt).
Proof.
  unfold report, report_lines.
  apply then_lines; [apply print_top_keys_eq |].
  apply then_lines; [apply print_samples_eq |].
  apply then_lines; [apply print_candidates_eq | apply print_shapes_eq].
Qed.

(** ** Which files are read *)

(** X2. The files the run reads are at most 200, they are names of the
    listing ending in [.json], taken in listing order; when fewer than 200
    are selected, every listed name ending in [.json] is among them. *)
Theorem selected_spec (fs : filesystem) :
  length (selected fs) ≤ 200 ∧
  selected fs `sublist_of` listdir fs ROUNDS_DIR ∧
  Forall (has_suffix ".json") (selected fs) ∧
  (length (selected fs) < 200 →
   ∀ f, f ∈ listdir fs ROUNDS_DIR → has_suffix ".json" f → f ∈ selected fs).
Proof.
  unfold selected.
  set (json := List.filter (fun f => endswith f ".json") (listdir fs ROUNDS_DIR)).
  assert (json `sublist_of` listdir fs ROUNDS_DIR) as Hsub.
  { subst json. induction (listdir fs ROUNDS_DIR) as [|f l IH]; [done |].
    simpl. destruct (endswith f ".json");
      [by apply sublist_skip | by apply sublist_cons]. }
  repeat split.
  - rewrite length_take. lia.
  - etrans; [apply sublist_take | done].
  - apply Forall_forall. intros f Hf.
    apply elem_of_take in Hf as (i & Hf & _).
    apply list_elem_of_lookup_2, list_elem_of_In, filter_In in Hf as [_ Hf].
    by apply endswith_spec.
  - intros Hlen f Hf Hsuf. rewrite length_take in Hlen.
    rewrite take_ge by lia.
    apply list_elem_of_In, filter_In. split; [by apply list_elem_of_In |].
    by apply endswith_spec.
Qed.

Lemma selected_spec_witness :
  length (selected fs_three) ≤ 200 ∧ "p3.json" ∈ selected fs_three.
Proof.
  destruct (selected_spec fs_three) as (Hlen & _ & _ & Hall).
  split; [exact Hlen |]. apply Hall.
  - vm_compute. lia.
  - vm_compute. do 3 apply list_elem_of_further. apply list_elem_of_here.
  - by exists "p3".
Defined.

(** X3. The run reads no file outside the selected ones: two machines with
    the same listing that agree on the selected files behave alike, even if
    a file past the first 200 or a file without the [.json] ending is
    malformed on one of them. *)
Theorem unselected_files_ignored (py_str : value → string)
    (fs1 fs2 : filesystem) (out : list string) :
  isdir fs1 ROUNDS_DIR = isdir fs2 ROUNDS_DIR →
  listdir fs1 ROUNDS_DIR = listdir fs2 ROUNDS_DIR →
  (∀ fn, fn ∈ selected fs1 →
     json_load fs1 (path_join ROUNDS_DIR fn) = json_load fs2 (path_join ROUNDS_DIR fn)) →
  main py_str fs1 out = main py_str fs2 out.
Proof.
  intros Hdir Hls Hload.
  assert (selected fs1 = selected fs2) as Hsel by (unfold selected; by rewrite Hls).
  destruct (first_bad_ext fs1 fs2 (selected fs1) Hload) as [Hbad Hdata].
  destruct (isdir fs1 ROUNDS_DIR) eqn:Hd1.
  - destruct (decide (selected fs1 = [])) as [Hnil | Hne].
    + unfold main. rewrite Hd1, <- Hdir, <- Hls. simpl.
      unfold selected in Hnil.
      destruct (List.filter _ _) as [|f l]; [done | by destruct l].
    + rewrite !main_eq; try congruence.
      by rewrite <- Hsel, Hbad, Hdata.
  - unfold main. by rewrite Hd1, <- Hdir.
Qed.

Lemma unselected_files_ignored_witness :
  json_load fs_many_bad_tail (path_join ROUNDS_DIR "f200.json") = None ∧
  main str_plain fs_many_bad_tail [] = main str_plain fs_many [].
Proof.
  split; [reflexivity |].
  apply (unselected_files_ignored str_plain fs_many_bad_tail fs_many []);
    [reflexivity | reflexivity |].
  assert (Forall (fun fn => String.eqb (path_join ROUNDS_DIR fn) "rounds/f200.json" = false)
            (selected fs_many_bad_tail)) as Hsel.
  { apply (bool_decide_unpack _). vm_compute. exact I. }
  intros fn Hfn. apply (proj1 (Forall_forall _ _) Hsel) in Hfn.
  unfold fs_many_bad_tail, fs_many. cbn [json_load]. by rewrite Hfn.
Defined.

(** ** All or nothing *)




(** X5. When every selected file decodes but none holds a usable record,
    the run still prints a report: the four headers and the four groups,
    each with an empty list, and nothing else. *)
Theorem report_without_records (py_str : value → string) (fs : filesystem)
    (out : list string) :
  isdir fs ROUNDS_DIR = true → selected fs ≠ [] →
  first_bad fs (selected fs) = None →
  sampled_records fs (selected fs) = [] →
  main py_str fs out =
    (out ++ [top_keys_header; samples_header; candidates_header;
             "date: " +:+ py_str (VList []); "score: " +:+ py_str (VList []);
             "course: " +:+ py_str (VList []); "tournament: " +:+ py_str (VList []);
             shapes_header], inr tt).
Proof.
  intros Hdir Hsel Hbad Hnone.
  rewrite main_eq, Hbad, report_eq, scan_records by done.
  fold (sampled_records fs (selected fs)). by rewrite Hnone.
Qed.

Lemma report_without_records_witness :
  main str_plain fs_many [] =
    ([top_keys_header; samples_header; candidates_header;
      "date: []"; "score: []"; "course: []"; "tournament: []"; shapes_header], inr tt).
Proof.
  apply (report_without_records str_plain fs_many []).
  - reflexivity.
  - discriminate.
  - reflexivity.
  - reflexivity.
Defined.

(** ** What the counters count *)

Section counter_more.
Context {K : Type} `{EqDecision K}.
Implicit Types (c : list (K * nat)) (k : K).

Lemma counter_get_fold (ks : list K) c k :
  counter_get (foldl (fun c k => counter_incr k c) c ks) k =
  counter_get c k + length (filter (fun x => x = k) ks).
Proof.
  revert c. induction ks as [|x ks IH]; intros c; cbn [foldl].
  - rewrite filter_nil. simpl. lia.
  - rewrite IH, counter_get_incr, filter_cons.
    destruct (decide (x = k)) as [-> | Hne].
    + rewrite decide_True by done. simpl. lia.
    + rewrite decide_False by congruence. done.
Qed.

Lemma counter_keys_nodup (ks : list K) c :
  NoDup (c.*1) → NoDup ((foldl (fun c k => counter_incr k c) c ks).*1).
Proof.
  revert c. induction ks as [|x ks IH]; intros c Hc; [done |].
  cbn [foldl]. apply IH. rewrite counter_keys_incr.
  case_decide as Hin; [done |].
  apply NoDup_app. repeat split; [done | | apply NoDup_singleton].
  intros y Hy ->%list_elem_of_singleton. done.
Qed.

Lemma counter_keys_fold_elem (ks : list K) c k :
  k ∈ (foldl (fun c k => counter_incr k c) c ks).*1 ↔ k ∈ c.*1 ∨ k ∈ ks.
Proof.
  revert c. induction ks as [|x ks IH]; intros c; cbn [foldl].
  - rewrite elem_of_nil. tauto.
  - rewrite IH, counter_keys_incr, elem_of_cons.
    case_decide as Hin.
    + split; [tauto |]. intros [? | [-> | ?]]; tauto.
    + rewrite elem_of_app, list_elem_of_singleton. tauto.
Qed.

Lemma counter_get_elem c k (n : nat) :
  NoDup (c.*1) → (k, n) ∈ c → counter_get c k = n.
Proof.
  induction c as [|[k0 n0] c IH]; intros Hnd Hin; [by apply elem_of_nil in Hin |].
  rewrite fmap_cons in Hnd. apply NoDup_cons in Hnd as [Hk0 Hnd].
  simpl. apply elem_of_cons in Hin as [[= -> ->] | Hin].
  - by rewrite decide_True.
  - rewrite decide_False; [by apply IH |].
    intros ->. apply Hk0. apply list_elem_of_fmap. by exists (k0, n).
Qed.
End counter_more.

Lemma count_values_for (k : string) (items : list (string * value)) :
  length (filter (fun x => x = k) (items.*1)) = length (values_for k items).
Proof.
  unfold values_for. rewrite length_fmap.
  induction items as [|[k0 v] items IH]; [done |].
  rewrite fmap_cons, !filter_cons. cbn [fst].
  destruct (decide (k0 = k)); simpl; by rewrite IH.
Qed.

Lemma key_count_values (recs : list (list (string * value))) (k : string) :
  counter_get (key_counts (foldl add_record no_stats recs)) k =
  length (values_for k (mjoin recs)).
Proof.
  rewrite key_counts_add_records, counter_get_fold, count_values_for. done.
Qed.

Lemma samples_values (recs : list (list (string * value))) (k : string) :
  samples_of (sample_values (foldl add_record no_stats recs)) k =
  take 5 (values_for k (mjoin recs)).
Proof.
  rewrite samples_add_records, keep5_fold.
  unfold samples_of, no_stats. cbn [sample_values]. by rewrite lookup_empty.
Qed.

Lemma first_seen_elem (l : list string) (k : string) :
  k ∈ first_seen l ↔ k ∈ l.
Proof.
  induction l as [|x l IH]; [done |].
  cbn [first_seen]. rewrite !elem_of_cons, list_elem_of_filter, IH.
  destruct (decide (k = x)); tauto.
Qed.

Lemma first_seen_nodup (l : list string) : NoDup (first_seen l).
Proof.
  induction l as [|x l IH]; [constructor |].
  cbn [first_seen]. apply NoDup_cons. split.
  - rewrite list_elem_of_filter. by intros [? _].
  - by apply NoDup_filter.
Qed.

(** X6. After a run over files that all decode, the count of a key is the
    number of sampled records that have the key, and its sample list holds
    the key's values in the first 5 of them (all of them when there are
    fewer); a key that no sampled record has counts 0 and has no sample. *)
Theorem key_count_is_records_with_key (fs : filesystem) (files : list string)
    (out out' : list string) (st : stats) (k : string) :
  scan_files fs files out = (out', inr st) →
  Forall dict_ok (sampled_records fs files) →
  counter_get (key_counts st) k =
    length (occurrences k (sampled_records fs files)) ∧
  samples_of (sample_values st) k =
    take 5 (occurrences k (sampled_records fs files)).
Proof.
  intros Hrun Hok. apply scan_files_records in Hrun as ->.
  by rewrite key_count_values, samples_values, values_for_occurrences.
Qed.

Lemma key_count_is_records_with_key_witness :
  counter_get (key_counts stats_seven) "course" = 6 ∧
  samples_of (sample_values stats_seven) "course" = replicate 5 (VStr "Links").
Proof.
  apply (key_count_is_records_with_key fs_seven (selected fs_seven) [] []).
  - reflexivity.
  - unfold dict_ok. apply (bool_decide_unpack _). vm_compute. exact I.
Defined.

(** X7. The key counter lists every key once, and a key is listed exactly
    when some sampled record has it. *)
Theorem counted_keys_are_record_keys (fs : filesystem) (files : list string)
    (out out' : list string) (st : stats) :
  scan_files fs files out = (out', inr st) →
  NoDup ((key_counts st).*1) ∧
  ∀ k, k ∈ (key_counts st).*1 ↔
       ∃ r, r ∈ sampled_records fs files ∧ k ∈ r.*1.
Proof.
  intros Hrun. apply scan_files_records in Hrun as ->.
  rewrite key_counts_order. split; [apply first_seen_nodup |].
  intros k. rewrite first_seen_elem, list_elem_of_fmap. split.
  - intros ([k' v] & -> & Hin). apply list_elem_of_join in Hin as (r & Hin & Hr).
    exists r. split; [done |]. apply list_elem_of_fmap. by exists (k', v).
  - intros (r & Hr & Hk). apply list_elem_of_fmap in Hk as (kv & -> & Hkv).
    exists kv. split; [done |]. apply list_elem_of_join. by exists r.
Qed.

Lemma counted_keys_are_record_keys_witness :
  NoDup ((key_counts stats_seven).*1) ∧
  ∀ k, k ∈ (key_counts stats_seven).*1 ↔
       ∃ r, r ∈ sampled_records fs_seven (selected fs_seven) ∧ k ∈ r.*1.
Proof.
  apply (counted_keys_are_record_keys fs_seven (selected fs_seven) [] []).
  reflexivity.
Defined.

(** ** What the shape counter counts *)

Lemma round_shapes_add_records (recs : list (list (string * value))) (st : stats) :
  round_shapes (foldl add_record st recs) =
  foldl (fun c k => counter_incr k c) (round_shapes st) (shape_of <$> recs).
Proof.
  revert st. induction recs as [|r recs IH]; intros st; [done |].
  cbn [foldl]. by rewrite IH, round_shapes_add_record.
Qed.

Lemma shape_count (recs : list (list (string * value))) (sh : list string) :
  counter_get (round_shapes (foldl add_record no_stats recs)) sh =
  length (filter (fun r => shape_of r = sh) recs).
Proof.
  rewrite round_shapes_add_records, counter_get_fold. simpl.
  induction recs as [|r recs IH]; [done |].
  rewrite fmap_cons, !filter_cons.
  destruct (decide (shape_of r = sh)); simpl; by rewrite IH.
Qed.

Lemma shape_of_perm (r : list (string * value)) : shape_of r ≡ₚ r.*1.
Proof. apply merge_sort_Permutation. Qed.

Lemma shape_of_sorted (r : list (string * value)) :
  StronglySorted String.le (shape_of r).
Proof. apply StronglySorted_merge_sort; apply _. Qed.

(** X8. A shape fingerprint is the record's keys in increasing order: a
    rearrangement of the keys, sorted, and without repetition since the keys
    of a record are distinct.  Two records get the same fingerprint only if
    they have the same keys. *)
Theorem shape_is_sorted_keys (r1 r2 : list (string * value)) :
  dict_ok r1 →
  shape_of r1 ≡ₚ r1.*1 ∧
  StronglySorted String.le (shape_of r1) ∧
  NoDup (shape_of r1) ∧
  (shape_of r1 = shape_of r2 → ∀ k, k ∈ r1.*1 ↔ k ∈ r2.*1).
Proof.
  intros Hok. split; [apply shape_of_perm |].
  split; [apply shape_of_sorted |]. split.
  - unfold dict_ok in Hok. by rewrite (shape_of_perm r1).
  - intros Heq k.
    rewrite <- (shape_of_perm r1), <- (shape_of_perm r2). by rewrite Heq.
Qed.

Lemma shape_is_sorted_keys_witness :
  shape_of [("score", VInt 70); ("player", VStr "A")] ≡ₚ ["score"; "player"] ∧
  StronglySorted String.le (shape_of [("score", VInt 70); ("player", VStr "A")]).
Proof.
  destruct (shape_is_sorted_keys [("score", VInt 70); ("player", VStr "A")] round_a)
    as (Hperm & Hsorted & _).
  - unfold dict_ok. apply (bool_decide_unpack _). vm_compute. exact I.
  - split; [exact Hperm | exact Hsorted].
Defined.

Lemma shape_entry (recs : list (list (string * value))) (sh : list string)
    (n : nat) :
  (sh, n) ∈ round_shapes (foldl add_record no_stats recs) →
  n = length (filter (fun r => shape_of r = sh) recs) ∧
  ∃ r, r ∈ recs ∧ shape_of r = sh.
Proof.
  intros Hin.
  assert (NoDup ((round_shapes (foldl add_record no_stats recs)).*1)) as Hnd.
  { rewrite round_shapes_add_records. apply counter_keys_nodup. constructor. }
  pose proof (counter_get_elem _ _ _ Hnd Hin) as Hget.
  rewrite shape_count in Hget. split; [done |].
  assert (sh ∈ (round_shapes (foldl add_record no_stats recs)).*1) as Hsh.
  { apply list_elem_of_fmap. by exists (sh, n). }
  rewrite round_shapes_add_records in Hsh.
  apply counter_keys_fold_elem in Hsh as [Hsh | Hsh];
    [by apply elem_of_nil in Hsh |].
  apply list_elem_of_fmap in Hsh as (r & -> & Hr). by exists r.
Qed.

(** X9. After a run over files that all decode, the shape counter lists
    every shape once; the count of a shape is the number of sampled records
    with that shape, a listed shape is the shape of some sampled record, and
    the counts add up to the number of sampled records. *)
Theorem shape_count_is_records_with_shape (fs : filesystem) (files : list string)
    (out out' : list string) (st : stats) :
  scan_files fs files out = (out', inr st) →
  NoDup ((round_shapes st).*1) ∧
  (∀ sh, counter_get (round_shapes st) sh =
         length (filter (fun r => shape_of r = sh) (sampled_records fs files))) ∧
  (∀ sh n, (sh, n) ∈ round_shapes st →
           n = length (filter (fun r => shape_of r = sh) (sampled_records fs files)) ∧
           ∃ r, r ∈ sampled_records fs files ∧ shape_of r = sh) ∧
  counter_total (round_shapes st) = length (sampled_records fs files).
Proof.
  intros Hrun. apply scan_files_records in Hrun as ->.
  assert (NoDup ((round_shapes (foldl add_record no_stats
                    (sampled_records fs files))).*1)) as Hnd.
  { rewrite round_shapes_add_records. apply counter_keys_nodup. constructor. }
  split; [done |]. split; [apply shape_count |]. split.
  - apply shape_entry.
  - rewrite shapes_total_add_records. simpl. lia.
Qed.

Lemma shape_count_is_records_with_shape_witness :
  counter_get (round_shapes stats_seven) ["course"; "score"] = 6 ∧
  counter_total (round_shapes stats_seven) = 7.
Proof.
  destruct (shape_count_is_records_with_shape fs_seven (selected fs_seven)
              [] [] stats_seven) as (_ & Hget & _ & Htotal).
  - reflexivity.
  - split; [apply Hget | apply Htotal].
Defined.

(** ** The sample cache *)

Lemma sample_entry_add_item (st : stats) (k0 k : string) (v : value) :
  is_Some (sample_values (add_item st (k0, v)) !! k) ↔
  k = k0 ∨ is_Some (sample_values st !! k).
Proof.
  unfold add_item, touch, samples_of. simpl.
  destruct (sample_values st !! k0) as [l|] eqn:E; simpl.
  - rewrite E. simpl. destruct (length l <? 5); simpl.
    + rewrite lookup_insert. case_decide as Hk.
      * subst. split; [by left | by eexists].
      * split; [by right | by intros [-> | ?]].
    + split; [by right | intros [-> | ?]; [by rewrite E | done]].
  - rewrite lookup_insert_eq. simpl.
    rewrite lookup_insert. case_decide as Hk.
    + subst. split; [by left | by eexists].
    + rewrite lookup_insert_ne by done.
      split; [by right | by intros [-> | ?]].
Qed.

Lemma sample_entry_add_items (items : list (string * value)) (st : stats)
    (k : string) :
  is_Some (sample_values (foldl add_item st items) !! k) ↔
  is_Some (sample_values st !! k) ∨ k ∈ items.*1.
Proof.
  revert st. induction items as [|[k0 v] items IH]; intros st; cbn [foldl].
  - rewrite elem_of_nil. tauto.
  - rewrite IH, sample_entry_add_item, fmap_cons, elem_of_cons. cbn [fst]. tauto.
Qed.

Lemma sample_entry_add_records (recs : list (list (string * value))) (st : stats)
    (k : string) :
  is_Some (sample_values (foldl add_record st recs) !! k) ↔
  is_Some (sample_values st !! k) ∨ k ∈ (mjoin recs).*1.
Proof.
  revert st. induction recs as [|r recs IH]; intros st; cbn [foldl].
  - rewrite elem_of_nil. tauto.
  - rewrite IH. unfold add_record. rewrite sample_entry_add_items.
    cbn [sample_values].
    change (mjoin (r :: recs)) with (r ++ mjoin recs).
    rewrite fmap_app, elem_of_app. tauto.
Qed.

(** X10. After a run over files that all decode, the sample cache has an
    entry for a key exactly when the key is counted: no entry is ever made
    for a key that was not seen, and none is missing for one that was. *)
Theorem sample_entries_are_counted_keys (fs : filesystem) (files : list string)
    (out out' : list string) (st : stats) (k : string) :
  scan_files fs files out = (out', inr st) →
  is_Some (sample_values st !! k) ↔ k ∈ (key_counts st).*1.
Proof.
  intros Hrun. apply scan_files_records in Hrun as ->.
  rewrite sample_entry_add_records, key_counts_order, first_seen_elem.
  cbn [sample_values no_stats]. rewrite lookup_empty.
  split; [by intros [[? [=]] | ?] | by right].
Qed.

Lemma sample_entries_are_counted_keys_witness :
  is_Some (sample_values stats_seven !! "course") ↔
  "course" ∈ (key_counts stats_seven).*1.
Proof.
  apply (sample_entries_are_counted_keys fs_seven (selected fs_seven) [] []).
  reflexivity.
Defined.

(** ** Corpora side by side *)

Lemma first_bad_app (fs : filesystem) (f1 f2 : list string) :
  first_bad fs (f1 ++ f2) =
  match first_bad fs f1 with
  | Some p => Some p
  | None => first_bad fs f2
  end.
Proof.
  induction f1 as [|fn f1 IH]; [done |].
  simpl. by destruct (json_load fs (path_join ROUNDS_DIR fn)).
Qed.

Lemma sampled_records_app (fs : filesystem) (f1 f2 : list string) :
  sampled_records fs (f1 ++ f2) = sampled_records fs f1 ++ sampled_records fs f2.
Proof. unfold sampled_records, loaded. by rewrite omap_app, bind_app. Qed.

Lemma take_app_take {A} (n : nat) (a b : list A) :
  take n (take n a ++ take n b) = take n (a ++ b).
Proof.
  rewrite !take_app, take_idemp, take_take, length_take.
  do 2 f_equal. lia.
Qed.

(** X11. The statistics of a corpus are those of its parts put together:
    when a run over [f1 ++ f2] completes, so do the runs over [f1] and over
    [f2]; every key count and every shape count is the sum of the two, and
    a key's samples are the first 5 of the samples of [f1] followed by
    those of [f2], so the samples taken from earlier files are kept. *)
Theorem stats_of_concatenation (fs : filesystem) (f1 f2 : list string)
    (out out' : list string) (st : stats) :
  scan_files fs (f1 ++ f2) out = (out', inr st) →
  ∃ st1 st2,
    scan_files fs f1 out = (out, inr st1) ∧
    scan_files fs f2 out = (out, inr st2) ∧
    (∀ k, counter_get (key_counts st) k =
            counter_get (key_counts st1) k + counter_get (key_counts st2) k) ∧
    (∀ sh, counter_get (round_shapes st) sh =
             counter_get (round_shapes st1) sh + counter_get (round_shapes st2) sh) ∧
    (∀ k, samples_of (sample_values st) k =
            take 5 (samples_of (sample_values st1) k ++ samples_of (sample_values st2) k) ∧
          samples_of (sample_values st1) k `prefix_of` samples_of (sample_values st) k).
Proof.
  intros Hrun. pose proof Hrun as Hst. apply scan_files_records in Hst as ->.
  rewrite scan_files_eq, first_bad_app in Hrun.
  destruct (first_bad fs f1) eqn:E1; [done |].
  destruct (first_bad fs f2) eqn:E2; [done |].
  exists (foldl add_record no_stats (sampled_records fs f1)),
         (foldl add_record no_stats (sampled_records fs f2)).
  rewrite !scan_files_eq, E1, E2, !scan_records. fold (sampled_records fs f1).
  fold (sampled_records fs f2). rewrite sampled_records_app.
  split; [done |]. split; [done |]. split; [|split].
  - intros k. rewrite !key_count_values, join_app, values_for_app, length_app. done.
  - intros sh. rewrite !shape_count, filter_app, length_app. done.
  - intros k. rewrite !samples_values, join_app, values_for_app, take_app_take.
    split; [done |]. rewrite take_app. by eexists.
Qed.

Lemma stats_of_concatenation_witness :
  ∃ st1 st2,
    scan_files fs_three ["p1.json"] [] = ([], inr st1) ∧
    scan_files fs_three ["p2.json"; "p3.json"] [] = ([], inr st2) ∧
    counter_get (key_counts stats_three) "score" =
      counter_get (key_counts st1) "score" + counter_get (key_counts st2) "score".
Proof.
  destruct (stats_of_concatenation fs_three ["p1.json"] ["p2.json"; "p3.json"]
              [] [] stats_three) as (st1 & st2 & H1 & H2 & Hk & _).
  - reflexivity.
  - exists st1, st2. split; [exact H1 |]. split; [exact H2 | apply Hk].
Defined.

(** ** Bounded work *)

Lemma length_omap_le {A B} (f : A → option B) (l : list A) :
  length (omap f l) ≤ length l.
Proof.
  induction l as [|x l IH]; [done |].
  cbn [omap list_omap]. destruct (f x); simpl; lia.
Qed.

Lemma length_records_of (data : value) : length (records_of data) ≤ 25.
Proof.
  unfold records_of. destruct (resolve_rounds data); simpl; try lia.
  etrans; [apply length_omap_le |]. rewrite length_take. lia.
Qed.

Lemma length_bind_le {A B} (f : A → list B) (n : nat) (l : list A) :
  (∀ x, length (f x) ≤ n) → length (l ≫= f) ≤ length l * n.
Proof.
  intros Hf. induction l as [|x l IH]; [done |].
  rewrite bind_cons, length_app. specialize (Hf x). simpl. lia.
Qed.

(** X12. The two caps bound the work: a run samples at most 25 records
    from each of at most 200 files, so at most 5000 records; when it
    completes, the shape counts add up to at most 5000 and no key is
    counted more than 5000 times. *)
Theorem at_most_5000_records (fs : filesystem) (out out' : list string)
    (st : stats) :
  scan_files fs (selected fs) out = (out', inr st) →
  Forall dict_ok (sampled_records fs (selected fs)) →
  length (sampled_records fs (selected fs)) ≤ 5000 ∧
  counter_total (round_shapes st) ≤ 5000 ∧
  ∀ k, counter_get (key_counts st) k ≤ 5000.
Proof.
  intros Hrun Hok.
  assert (length (sampled_records fs (selected fs)) ≤ 5000) as Hlen.
  { unfold sampled_records.
    etrans; [apply (length_bind_le _ 25), length_records_of |].
    unfold loaded. pose proof (length_omap_le
      (fun fn => json_load fs (path_join ROUNDS_DIR fn)) (selected fs)).
    unfold selected in *. rewrite length_take in *. lia. }
  apply scan_files_records in Hrun as ->.
  split; [done |]. split.
  - rewrite shapes_total_add_records. simpl. lia.
  - intros k. rewrite key_count_values, values_for_occurrences by done.
    unfold occurrences. etrans; [apply length_omap_le | done].
Qed.

Lemma at_most_5000_records_witness :
  length (sampled_records fs_seven (selected fs_seven)) ≤ 5000 ∧
  counter_total (round_shapes stats_seven) ≤ 5000 ∧
  ∀ k, counter_get (key_counts stats_seven) k ≤ 5000.
Proof.
  apply (at_most_5000_records fs_seven [] []).
  - reflexivity.
  - unfold dict_ok. apply (bool_decide_unpack _). vm_compute. exact I.
Defined.

(** ** Files that are passed over *)

(** X13. A wrapper is passed over without error, leaving the statistics as
    they were, when none of the three aliases holds a truthy value, and
    also when ["rounds"] holds a truthy value that is not a sequence: the
    later aliases are then not consulted, whatever they hold. *)
Theorem wrapper_passed_over (st : stats) (d : list (string * value)) :
  ((∀ a, a ∈ aliases → truthy (dict_get d a) = false) →
     scan_data st (VDict d) = st) ∧
  (∀ v, dict_lookup "rounds" d = Some v → truthy v = true →
        (∀ l, v ≠ VList l) → scan_data st (VDict d) = st).
Proof.
  unfold scan_data, resolve_rounds, py_or. split.
  - intros Hfalsy. rewrite !Hfalsy; [done | | |]; unfold aliases;
      rewrite !elem_of_cons; tauto.
  - intros v Hv Htrue Hnot. unfold dict_get. rewrite Hv. simpl.
    rewrite Htrue. destruct v; try done. by destruct (Hnot l).
Qed.

Lemma wrapper_passed_over_witness :
  scan_data no_stats (VDict no_alias) = no_stats ∧
  scan_data no_stats (VDict rounds_is_mapping) = no_stats.
Proof.
  destruct (wrapper_passed_over no_stats no_alias) as [Hnone _].
  destruct (wrapper_passed_over no_stats rounds_is_mapping) as [_ Hmap].
  split.
  - apply Hnone. intros a Ha. unfold aliases in Ha.
    repeat (apply elem_of_cons in Ha as [-> | Ha]; [reflexivity |]).
    by apply elem_of_nil in Ha.
  - apply (Hmap (VDict [("r1", VInt 70)])); [reflexivity | reflexivity |].
    intros l. discriminate.
Defined.

(** X14. A wrapper whose ["rounds"] holds a non-empty sequence is scanned
    exactly like a file that is that sequence; the same holds for ["data"]
    when ["rounds"] is absent or falsy, and for ["items"] when both are. *)
Theorem wrapper_like_bare_list (st : stats) (d : list (string * value))
    (l : list value) :
  l ≠ [] →
  (dict_lookup "rounds" d = Some (VList l) →
     scan_data st (VDict d) = scan_data st (VList l)) ∧
  (truthy (dict_get d "rounds") = false → dict_lookup "data" d = Some (VList l) →
     scan_data st (VDict d) = scan_data st (VList l)) ∧
  (truthy (dict_get d "rounds") = false → truthy (dict_get d "data") = false →
     dict_lookup "items" d = Some (VList l) →
     scan_data st (VDict d) = scan_data st (VList l)).
Proof.
  intros Hl. destruct l as [|r l]; [done |].
  unfold scan_data, resolve_rounds, py_or, dict_get. repeat split.
  - intros ->. done.
  - intros -> ->. done.
  - intros -> -> ->. done.
Qed.

Lemma wrapper_like_bare_list_witness :
  scan_data no_stats (VDict empty_rounds_then_data) =
  scan_data no_stats (VList [VDict round_a]).
Proof.
  destruct (wrapper_like_bare_list no_stats empty_rounds_then_data [VDict round_a])
    as (_ & Hdata & _); [discriminate |].
  apply Hdata; reflexivity.
Defined.

(** X15. Only the first 25 entries of a sequence are looked at: entries
    after them change nothing, and entries among them that are not mappings
    use up their place, so a sequence whose first 25 entries are not
    mappings adds nothing even if mappings follow. *)
Theorem only_first_25_entries (st : stats) (l l' : list value) :
  (25 ≤ length l → scan_data st (VList (l ++ l')) = scan_data st (VList l)) ∧
  (Forall (fun v => as_dict v = None) (take 25 l) → scan_data st (VList l) = st).
Proof.
  rewrite !scan_data_records. unfold records_of, resolve_rounds. split.
  - intros Hlen. by rewrite take_app_le.
  - intros Hnone. induction Hnone as [|v vs Hv _ IH]; [done |].
    cbn [omap list_omap]. by rewrite Hv.
Qed.

Lemma only_first_25_entries_witness :
  scan_data no_stats (VList numbers_then_record) = no_stats ∧
  scan_data no_stats (VList (replicate 25 (VDict round_a) ++ [VDict [("x", VNone)]])) =
    scan_data no_stats (VList (replicate 25 (VDict round_a))).
Proof.
  destruct (only_first_25_entries no_stats numbers_then_record []) as [_ Hskip].
  destruct (only_first_25_entries no_stats (replicate 25 (VDict round_a))
              [VDict [("x", VNone)]]) as [Hcap _].
  split.
  - apply Hskip. vm_compute. repeat constructor.
  - apply Hcap. vm_compute. lia.
Defined.

(** ** The other parts of the report *)

Lemma most_common_elem {K} (n : nat) (c : list (K * nat)) (x : K * nat) :
  x ∈ most_common n c → x ∈ c.
Proof.
  unfold most_common. intros Hx.
  apply elem_of_take in Hx as (i & Hx & _).
  apply list_elem_of_lookup_2 in Hx. by rewrite sort_desc_perm in Hx.
Qed.

Lemma filter_sublist {A} (f : A → bool) (l : list A) :
  List.filter f l `sublist_of` l.
Proof.
  induction l as [|x l IH]; [done |].
  simpl. destruct (f x); [by apply sublist_skip | by apply sublist_cons].
Qed.

(** X16. The second part of the report shows, for each of the first 30
    keys in order of first occurrence, the key's name followed by the
    values it has in the first 5 sampled records that have it, one per
    line after three spaces. *)
Theorem samples_section (py_str : value → string) (fs : filesystem)
    (files : list string) (out out' : list string) (st : stats) :
  scan_files fs files out = (out', inr st) →
  Forall dict_ok (sampled_records fs files) →
  print_samples py_str st out' =
    (out' ++ samples_header ::
       (take 30 (first_seen ((mjoin (sampled_records fs files)).*1)) ≫= fun k =>
          (nl +:+ k +:+ ":") ::
          ((fun v => "   " +:+ py_str v) <$>
             take 5 (occurrences k (sampled_records fs files)))),
     inr tt).
Proof.
  intros Hrun Hok. apply scan_files_records in Hrun as ->.
  rewrite print_samples_eq. unfold samples_lines, sample_lines.
  rewrite key_counts_order. do 3 f_equal.
  apply list_bind_ext; [|done]. intros k.
  by rewrite samples_values, values_for_occurrences, take_idemp.
Qed.

Lemma samples_section_witness :
  print_samples str_plain stats_seven [] =
    ([samples_header;
      nl +:+ "score:"; "   70"; "   71"; "   72"; "   73"; "   74";
      nl +:+ "course:"; "   Links"; "   Links"; "   Links"; "   Links"; "   Links"],
     inr tt).
Proof.
  apply (samples_section str_plain fs_seven (selected fs_seven) [] []).
  - reflexivity.
  - unfold dict_ok. apply (bool_decide_unpack _). vm_compute. exact I.
Defined.

(** X17. The third part of the report is five lines: its header, then the
    groups [date], [score], [course] and [tournament] in this order.  Each
    group lists its keys in the order of the key counter, that is of first
    occurrence, and no key twice. *)
Theorem candidates_section (py_str : value → string) (fs : filesystem)
    (files : list string) (out out' : list string) (st : stats) :
  scan_files fs files out = (out', inr st) →
  let g := guess ((key_counts st).*1) in
  print_candidates py_str st out' =
    (out' ++ [candidates_header;
              "date: " +:+ str_keys py_str (cand_date g);
              "score: " +:+ str_keys py_str (cand_score g);
              "course: " +:+ str_keys py_str (cand_course g);
              "tournament: " +:+ str_keys py_str (cand_tournament g)], inr tt) ∧
  Forall (fun ks => ks `sublist_of` (key_counts st).*1 ∧ NoDup ks)
    [cand_date g; cand_score g; cand_course g; cand_tournament g].
Proof.
  intros Hrun g. split.
  - rewrite print_candidates_eq. subst g. by rewrite guess_eq.
  - assert (NoDup ((key_counts st).*1)) as Hnd.
    { apply scan_files_records in Hrun as ->.
      rewrite key_counts_order. apply first_seen_nodup. }
    subst g. rewrite guess_eq.
    cbn [cand_date cand_score cand_course cand_tournament].
    repeat (constructor;
      [split; [apply filter_sublist |
               eapply sublist_NoDup; [done | apply filter_sublist]] |]).
    constructor.
Qed.

Lemma candidates_section_witness :
  print_candidates str_plain stats_seven [] =
    ([candidates_header; "date: []"; "score: [score]"; "course: [course]";
      "tournament: []"], inr tt).
Proof.
  destruct (candidates_section str_plain fs_seven (selected fs_seven) [] [] stats_seven)
    as [Hprint _]; [reflexivity |].
  exact Hprint.
Defined.

(** X18. The last part of the report is its header followed by two lines,
    count and keys, for each of the 5 most common shapes (all shapes when
    there are fewer), in decreasing order of count and, among equal counts,
    in order of first occurrence.  The count shown is the number of sampled
    records of that shape, and the keys are shown in sorted order. *)
Theorem shapes_section (py_str : value → string) (fs : filesystem)
    (files : list string) (out out' : list string) (st : stats) :
  scan_files fs files out = (out', inr st) →
  let top := most_common 5 (round_shapes st) in
  print_shapes py_str st out' =
    (out' ++ shapes_header ::
       (top ≫= fun sc => [nl +:+ "Count: " +:+ str_nat (snd sc);
                          "Keys: " +:+ str_keys py_str (fst sc)]), inr tt) ∧
  length top = Nat.min 5 (length (round_shapes st)) ∧
  StronglySorted count_ge top ∧
  (∀ n, filter (fun p => snd p = n) top `prefix_of`
        filter (fun p => snd p = n) (round_shapes st)) ∧
  (∀ sh n, (sh, n) ∈ top →
     StronglySorted String.le sh ∧
     n = length (filter (fun r => shape_of r = sh) (sampled_records fs files))).
Proof.
  intros Hrun top. split; [apply print_shapes_eq |].
  split; [apply most_common_length |].
  split; [apply most_common_sorted |].
  split; [intros n; apply most_common_ties |].
  intros sh n Hin. apply most_common_elem in Hin.
  apply scan_files_records in Hrun as ->.
  apply shape_entry in Hin as (-> & r & _ & <-).
  split; [apply shape_of_sorted | done].
Qed.

Lemma shapes_section_witness :
  print_shapes str_plain stats_seven [] =
    ([shapes_header;
      nl +:+ "Count: 6"; "Keys: [course, score]";
      nl +:+ "Count: 1"; "Keys: [score]"], inr tt).
Proof.
  destruct (shapes_section str_plain fs_seven (selected fs_seven) [] [] stats_seven)
    as [Hprint _]; [reflexivity |].
  exact Hprint.
Defined.
